(** * Verification of the agent core: remote-write queue and flow import nodes

    A shallow embedding of the Go sources

    - [component/prometheus/remote/linear]: the [appender] and [Queue.commit];
    - [component/prometheus/remote/simple]: the [writer] and its delivery loop;
    - [pkg/flow/internal/importsource]: the git import source [ImportGit];
    - [pkg/flow/internal/controller]: [ImportConfigNode] and
      [CustomComponentNode].

    Mutable receivers are modelled by explicit state passing: a method
    [func (x *T) M(args) R] becomes a function [M : T -> args -> T * R].
    Collaborators whose code is not part of the sources (the key-value store,
    the remote queue manager, the git library, the River parser and evaluator)
    are interfaces: type classes or section variables.  Readings of the wall
    clock are arguments. *)

From Stdlib Require Import ZArith NArith Lia Bool Ascii String Floats.SpecFloat.
From stdpp Require Import base option list strings gmap.

Local Open Scope string_scope.
Local Open Scope Z_scope.

(** ** Go primitives shared by all packages *)

Module Go.

(** [int64] arithmetic wraps around modulo 2^64. *)
Definition wrap64 (z : Z) : Z := (z + 2 ^ 63) mod 2 ^ 64 - 2 ^ 63.

Definition in_int64 (z : Z) : Prop := - 2 ^ 63 <= z < 2 ^ 63.

(** A Go [error] value is represented by its [Error()] message; the nil
    error is [None]. *)
Definition error := string.

(** [time.Duration] counts nanoseconds in an [int64]. *)
Definition Duration := Z.
Definition Millisecond : Duration := 1000000.
Definition Second : Duration := 1000000000.

(** [float64] arithmetic is IEEE-754 binary64 with rounding to nearest
    even, as specified by [SpecFloat] for precision 53 and maximal exponent
    1024. *)
Definition float64_of_int64 (z : Z) : spec_float := binary_normalize 53 1024 z 0 false.

(** [int64(f)] for a finite [f] within range: truncation toward zero. *)
Definition int64_of_float64 (f : spec_float) : Z :=
  match f with
  | S754_finite s m e =>
      let v := if 0 <=? e then Z.pos m * 2 ^ e else Z.pos m / 2 ^ (- e) in
      if s then - v else v
  | _ => 0
  end.

(** [d.Seconds()]: [float64(d / Second) + float64(d % Second) / 1e9]. *)
Definition Seconds (d : Duration) : spec_float :=
  let sec := Z.quot d Second in
  let nsec := Z.rem d Second in
  SFadd 53 1024 (float64_of_int64 sec)
        (SFdiv 53 1024 (float64_of_int64 nsec) (float64_of_int64 1000000000)).

(** [int64(d.Seconds())]. *)
Definition Seconds_int64 (d : Duration) : Z := int64_of_float64 (Seconds d).

(** [d.Milliseconds()] is the integer [int64(d) / 1e6]. *)
Definition Milliseconds (d : Duration) : Z := Z.quot d Millisecond.

(** The result of a call that may end in a run-time panic. *)
Inductive outcome (A : Type) : Type :=
| Done (a : A)
| Panicked (msg : string).
Arguments Done {A} a.
Arguments Panicked {A} msg.

Definition bind {A B : Type} (x : outcome A) (f : A -> outcome B) : outcome B :=
  match x with
  | Done a => f a
  | Panicked msg => Panicked msg
  end.

#[global] Instance outcome_ret : MRet outcome := @Done.
#[global] Instance outcome_bind : MBind outcome :=
  fun A B f x => bind x f.

(** [s[lo:hi]] on a string: a panic unless [0 <= lo <= hi <= len(s)]. *)
Definition slice (s : string) (lo hi : Z) : outcome string :=
  if (0 <=? lo) && (lo <=? hi) && (hi <=? Z.of_nat (String.length s))
  then Done (String.substring (Z.to_nat lo) (Z.to_nat (hi - lo)) s)
  else Panicked "slice bounds out of range".

(** A Go map is a reference: [None] is the nil map, [Some m] a map made
    by [make].  Reading a nil map finds nothing and its length is 0; an
    assignment to an entry of a nil map panics. *)
Section GoMap.
Context {K : Type} `{Countable K} {V : Type}.

Definition mapMake : option (gmap K V) := Some ∅.

#[global] Instance gomap_lookup : Lookup K V (option (gmap K V)) :=
  fun k m => match m with Some m => m !! k | None => None end.

Definition mapAssign (m : option (gmap K V)) (k : K) (v : V) : outcome (option (gmap K V)) :=
  match m with
  | Some m => Done (Some (<[k := v]> m))
  | None => Panicked "assignment to entry in nil map"
  end.

Definition mapLen (m : option (gmap K V)) : nat := size (default ∅ m).

(** The entries a [range] loop visits.  Go visits them in an unspecified
    order; the model takes the order of [map_to_list]. *)
Definition mapRange (m : option (gmap K V)) : list (K * V) := map_to_list (default ∅ m).

End GoMap.

(** [strings.Join elems sep]. *)
Fixpoint Join (elems : list string) (sep : string) : string :=
  match elems with
  | [] => ""
  | [e] => e
  | e :: rest => e +:+ sep +:+ Join rest sep
  end.

(** [strings.HasPrefix s p]. *)
Fixpoint HasPrefix (s p : string) {struct p} : bool :=
  match p, s with
  | EmptyString, _ => true
  | String c p', String d s' => if Ascii.eqb c d then HasPrefix s' p' else false
  | String _ _, EmptyString => false
  end.

(** [strings.Contains s substr]: some suffix of [s] starts with [substr]. *)
Fixpoint Contains (s substr : string) : bool :=
  HasPrefix s substr ||
  match s with
  | EmptyString => false
  | String _ s' => Contains s' substr
  end.

(** [strings.Split s sep] for a separator of one character. *)
Fixpoint splitOn (sep : ascii) (s : string) : list string :=
  match s with
  | EmptyString => [""]
  | String c s' =>
      if Ascii.eqb c sep then "" :: splitOn sep s'
      else match splitOn sep s' with
           | [] => [String c ""]
           | p :: ps => String c p :: ps
           end
  end.

(** [path.Clean], and [filepath.Clean] where the separator is the slash:
    empty and [.] elements are dropped, a [..] element removes the element
    before it, or is dropped at the root, or is kept at the start of a
    relative path; the empty result is [.].  [kept] holds the elements kept
    so far, the last one first. *)
Definition cleanElem (rooted : bool) (kept : list string) (e : string) : list string :=
  if String.eqb e "" || String.eqb e "." then kept
  else if String.eqb e ".." then
    match kept with
    | top :: rest => if String.eqb top ".." then e :: kept else rest
    | [] => if rooted then [] else [e]
    end
  else e :: kept.

Definition Clean (p : string) : string :=
  let rooted := HasPrefix p "/" in
  let body := Join (rev (fold_left (cleanElem rooted) (splitOn "/" p) [])) "/" in
  if rooted then "/" +:+ body
  else if String.eqb body "" then "." else body.

End Go.

(** ** Package [linear]: the appender in front of the on-disk queue *)

Module Linear.
Import Go.

Definition SeriesRef := Z.

(** [labels.Labels]: name/value pairs. *)
Definition Labels := list (string * string).

(** A [float64] sample value is carried around by its IEEE-754 bit pattern;
    the appender never inspects it. *)
Definition float64 := Z.

Record Sample := mkSample { s_labels : Labels; s_t : Z; s_v : float64 }.

(** Modelled from the spec: the pooled in-memory batch [linear], whose
    declaration ([AddMetric], [Reset], [Serialize], [estimatedSize],
    [totalMetrics]) is missing from the sources.  Following section 4.5, it
    accumulates samples in append order and keeps an estimate of the encoded
    size; the per-sample estimate is the parameter [sizeOf]. *)
Record linear := mkLinear {
  metrics : list Sample;
  estimatedSize : Z;
  totalMetrics : Z
}.

Definition emptyLinear : linear := mkLinear [] 0 0.

(** The on-disk [queue] behind [Queue.database] is not part of the
    sources.  [commit] reaches it through [AddCommited], which answers with
    the key of the new entry and an error. *)
Class QueueStore (D : Type) := {
  AddCommited : D -> list Sample -> D * (N * option error)
}.

Section Appender.
Variable sizeOf : Sample -> Z.
Context {D : Type} `{QueueStore D}.

Definition AddMetric (b : linear) (l : Labels) (t : Z) (v : float64) : linear :=
  let s := mkSample l t v in
  mkLinear (metrics b ++ [s]) (estimatedSize b + sizeOf s) (totalMetrics b + 1).

Definition Reset (_ : linear) : linear := emptyLinear.

(** [Serialize] writes the batch to a byte buffer; the queue stores the
    buffer as an opaque payload, represented here by the batch contents. *)
Definition Serialize (b : linear) : list Sample := metrics b.

(** The [Queue] component as far as the appender reaches it.  [offered]
    records the calls of [AddCommited], oldest first: the payload handed
    over and the error that came back, which [commit] only logs. *)
Record Queue := mkQueue {
  database : D;
  offered : list (list Sample * option error)
}.

(** The appender holds a pointer to its batch.  [pooled] counts how often
    the appender has handed that batch to [LinearPool.Put] while keeping
    the pointer. *)
Record appender := mkAppender {
  ttl : Duration;
  l : linear;
  pooled : nat
}.

(** [newAppender].  Modelled from the spec: [LinearPool], whose declaration
    is missing from the sources; by section 4.5 the batch is pooled, and
    [Get] is taken to yield an empty batch. *)
Definition newAppender (ttl : Duration) : appender := mkAppender ttl emptyLinear 0.

(** [Queue.commit]: an empty batch is not written; an error of
    [AddCommited] is logged and nothing else. *)
Definition commit (c : Queue) (a : appender) : Queue :=
  if totalMetrics (l a) =? 0 then c
  else
    let bb := Serialize (l a) in
    let '(d, (_, err)) := AddCommited (database c) bb in
    mkQueue d (offered c ++ [(bb, err)]).

(** [appender.Append]; [now] is [time.Now().UnixMilli()]. *)
Definition Append (now : Z) (c : Queue) (a : appender)
    (ref : SeriesRef) (lbls : Labels) (t : Z) (v : float64)
    : Queue * appender * (SeriesRef * option error) :=
  let endTime := wrap64 (now - Seconds_int64 (ttl a)) in
  if t <? endTime then (c, a, (ref, None))
  else
    let a1 := mkAppender (ttl a) (AddMetric (l a) lbls t v) (pooled a) in
    if estimatedSize (l a1) >? 16 * 1024 * 1024 then
      (commit c a1, mkAppender (ttl a1) (Reset (l a1)) (pooled a1), (ref, None))
    else (c, a1, (ref, None)).

(** [appender.Commit]: the batch is written, reset and put back into the
    pool; the result is always nil. *)
Definition Commit (c : Queue) (a : appender) : Queue * appender * option error :=
  (commit c a, mkAppender (ttl a) (Reset (l a)) (Datatypes.S (pooled a)), None).

(** The samples handed to [AddCommited] so far, in order, and those among
    them whose write came back without error. *)
Definition handed (c : Queue) : list Sample := concat (offered c).*1.

Definition written (c : Queue) : list Sample :=
  concat (filter (fun o => o.2 = None) (offered c)).*1.

(** Every sample the appender has taken in: handed to the database, or
    still in the batch. *)
Definition taken (c : Queue) (a : appender) : list Sample :=
  handed c ++ metrics (l a).

End Appender.

Arguments Queue : clear implicits.

(** The labels of the series [up] of the job [agent], for the examples. *)
Definition up : Labels := [("__name__", "up"); ("job", "agent")].

End Linear.

(** *** Two stand-ins for the on-disk queue *)

Module LinearMem.
Import Go Linear.

(** Modelled from the spec: the on-disk [queue], which is missing from the
    sources.  Following section 4.5 each write adds one entry under the
    key after the greatest one; this one never refuses a write. *)
#[global] Instance list_QueueStore : QueueStore (list (list Sample)) := {|
  AddCommited d bb := ((d ++ [bb])%list, (N.of_nat (length d + 1), None))
|}.

Definition emptyQueue : Queue (list (list Sample)) := mkQueue [] [].

(** A queue on a disk with room for [room] more entries; a write without
    room fails. *)
Record disk := mkDisk { stored : list (list Sample); room : nat }.

#[global] Instance disk_QueueStore : QueueStore disk := {|
  AddCommited d bb :=
    match room d with
    | O => (d, (0%N, Some "no space left on device"))
    | Datatypes.S n =>
        (mkDisk (stored d ++ [bb]) n, (N.of_nat (length (stored d) + 1), None))
    end
|}.

(** A queue on a full disk. *)
Definition fullQueue : Queue disk := mkQueue (mkDisk [] 0) [].

End LinearMem.

(** ** Package [simple]: the writer that ships queue entries to the remote *)

Module Simple.
Import Go.

(** The element types of the signal slices belong to the [prometheus]
    package; the writer only hands the slices over, so a slice is an opaque
    payload. *)
Definition payload := list Z.

(** The dynamic type of a value returned by [GetSignal].  [OtherSignal]
    stands for any type the type switch of [Start] has no case for. *)
Inductive Signal :=
| Samples (v : payload)
| Metadata (v : payload)
| Exemplars (v : payload)
| FloatHistograms (v : payload)
| Histograms (v : payload)
| OtherSignal.

Record Bookmark := mkBookmark { Key : N }.

(** The key-value store [dbstore] is not part of the sources; the writer
    uses it through these five methods.  [GetBookmark] and [GetSignal]
    return [(value, found)], rendered as an option. *)
Class DbStore (S : Type) := {
  GetBookmark : S -> string -> option Bookmark;
  GetOldestKey : S -> N;
  GetNextKey : S -> N -> N;
  GetSignal : S -> N -> option Signal;
  WriteBookmark : S -> string -> Bookmark -> S * option error
}.

(** The remote [QueueManager] is not part of the sources either.  Each
    submission may change the manager and reports [(success, err)];
    [AppendMetadata] reports only [success]. *)
Class QueueManager (Q : Type) := {
  Name : Q -> string;
  Append : Q -> payload -> Q * (bool * option error);
  AppendMetadata : Q -> payload -> Q * bool;
  AppendExemplars : Q -> payload -> Q * (bool * option error);
  AppendFloatHistograms : Q -> payload -> Q * (bool * option error);
  AppendHistograms : Q -> payload -> Q * (bool * option error)
}.

(** The start position in the words of the specification, section 4.5:
    the writer reads from [max(bookmark, oldest)], and from the oldest key
    when there is no bookmark.  It is compared with [newWriter] below. *)
Definition specStartKey (bookmark : option Bookmark) (oldest : N) : N :=
  match bookmark with
  | Some b => N.max (Key b) oldest
  | None => oldest
  end.

(** The descriptor looked for in the remote's error message. *)
Definition terminalDescriptor : string := "the sample has been rejected".



Section Writer.
Context {S Q : Type} `{DbStore S} `{QueueManager Q}.

Record writer := mkWriter {
  parentId : string;
  currentKey : N;
  to : Q;
  store : S;
  bookmarkKey : string
}.

Definition setKey (w : writer) (k : N) : writer :=
  mkWriter (parentId w) k (to w) (store w) (bookmarkKey w).
Definition setTo (w : writer) (q : Q) : writer :=
  mkWriter (parentId w) (currentKey w) q (store w) (bookmarkKey w).
Definition setStore (w : writer) (s : S) : writer :=
  mkWriter (parentId w) (currentKey w) (to w) s (bookmarkKey w).

(** [newWriter]. *)
Definition newWriter (parent : string) (to0 : Q) (store0 : S) : writer :=
  let name := "metrics_write_to_" +:+ Name to0 +:+ "_parent_" +:+ parent in
  let w := mkWriter parent 0%N to0 store0 name in
  let w :=
    match GetBookmark (store w) (bookmarkKey w) with
    | None => setKey w (GetOldestKey (store w))
    | Some v => setKey w (Key v)
    end in
  if (currentKey w =? 0)%N then setKey w 1%N else w.

(** [incrementKey] returns true if the key changed. *)
Definition incrementKey (w : writer) : writer * bool :=
  let prev := currentKey w in
  let w := setKey w (GetNextKey (store w) (currentKey w)) in
  (w, negb (prev =? currentKey w)%N).

(** The variables of [Start] that live across loop iterations. *)
Record loopVars := mkLoopVars {
  newKey : bool;
  success : bool;
  err : option error
}.

(** The type switch of [Start]: the submission of one entry.  A case that
    does not assign a variable leaves its previous value. *)
Definition submit (q : Q) (val : Signal) (success0 : bool) (err0 : option error)
    : Q * bool * option error :=
  match val with
  | Samples v => let '(q, (s, e)) := Append q v in (q, s, e)
  | Metadata v => let '(q, s) := AppendMetadata q v in (q, s, err0)
  | Exemplars v => let '(q, (s, e)) := AppendExemplars q v in (q, s, e)
  | FloatHistograms v => let '(q, (s, e)) := AppendFloatHistograms q v in (q, s, e)
  | Histograms v => let '(q, (s, e)) := AppendHistograms q v in (q, s, e)
  | OtherSignal => (q, success0, err0)
  end.

(** The value of [recoverableError] after the [if err != nil] block. *)
Definition recoverable (e : option error) : bool :=
  match e with
  | Some msg => negb (Contains msg terminalDescriptor)
  | None => true
  end.

(** One pass through the body of the [for] loop of [Start], up to the
    timer.  The result carries the [timeOut] the pass waits for. *)
Definition iteration (w : writer) (lv : loopVars) : writer * loopVars * Duration :=
  let recoverableError := true in
  let timeOut := 1 * Second in
  let '(w, success, err, recoverableError) :=
    if newKey lv || negb (success lv) then
      match GetSignal (store w) (currentKey w) with
      | Some val =>
          let '(q, success, err) := submit (to w) val (success lv) (err lv) in
          let w := setTo w q in
          let recoverableError := recoverable err in
          if success || negb recoverableError then
            let '(s, err) :=
              WriteBookmark (store w) (bookmarkKey w) (mkBookmark (currentKey w)) in
            (setStore w s, success, err, recoverableError)
          else (w, success, err, recoverableError)
      | None => (w, success lv, err lv, recoverableError)
      end
    else (w, success lv, err lv, recoverableError) in
  let '(w, newKey) :=
    if success || negb recoverableError then incrementKey w else (w, newKey lv) in
  let timeOut := if success && newKey then 10 * Millisecond else timeOut in
  (w, mkLoopVars newKey success err, timeOut).

(** The statements of [Start] before the loop. *)
Definition StartInit (w : writer) : writer * loopVars :=
  let '(w, newKey) := incrementKey w in
  (w, mkLoopVars newKey true None).

(** [n] passes of the loop, for a context that is not cancelled and a
    store no other task touches in between. *)
Fixpoint iterate (n : nat) (w : writer) (lv : loopVars) : writer * loopVars :=
  match n with
  | O => (w, lv)
  | Datatypes.S n =>
      let '(w, lv, _) := iteration w lv in iterate n w lv
  end.

(** The key a pass looks up, if it looks one up. *)
Definition lookedUp (w : writer) (lv : loopVars) : option N :=
  if newKey lv || negb (success lv) then Some (currentKey w) else None.

End Writer.

Arguments writer : clear implicits.

End Simple.

(** *** An in-memory store and a scripted remote, for running the writer *)

Module SimpleMem.
Import Go Simple.

(** Modelled from the spec: the key-ordered store [dbstore], which is
    missing from the sources.  Following section 3, it maps monotonically
    increasing 64-bit keys to payloads and writer names to bookmarks; the
    oldest key is the least persisted key and the next key after [k] is the
    least persisted key above [k].  With no such key the lookups answer [0]
    and [k]. *)
Record memStore := mkMemStore {
  entries : gmap N Signal;
  bookmarks : gmap string Bookmark
}.

Definition leastKey (ks : list N) : option N :=
  foldr (fun k acc => match acc with
                      | None => Some k
                      | Some m => Some (N.min k m)
                      end) None ks.

Definition keysOf (s : memStore) : list N := (map_to_list (entries s)).*1.

Definition memOldestKey (s : memStore) : N :=
  default 0%N (leastKey (keysOf s)).

Definition memNextKey (s : memStore) (k : N) : N :=
  default k (leastKey (filter (fun j => (k < j)%N) (keysOf s))).

#[global] Instance memStore_DbStore : DbStore memStore := {|
  GetBookmark s name := bookmarks s !! name;
  GetOldestKey := memOldestKey;
  GetNextKey := memNextKey;
  GetSignal s k := entries s !! k;
  WriteBookmark s name b := (mkMemStore (entries s) (<[name := b]> (bookmarks s)), None)
|}.

(** A remote that answers submissions from a script, one answer per
    submission, and accepts everything once the script is used up.  It
    records what it was sent. *)
Record scripted := mkScripted {
  remoteName : string;
  script : list (bool * option error);
  sent : list payload
}.

Definition answer (q : scripted) (v : payload) : scripted * (bool * option error) :=
  match script q with
  | [] => (mkScripted (remoteName q) [] (sent q ++ [v]), (true, None))
  | r :: rest => (mkScripted (remoteName q) rest (sent q ++ [v]), r)
  end.

#[global] Instance scripted_QueueManager : QueueManager scripted := {|
  Name := remoteName;
  Append := answer;
  AppendMetadata q v := let '(q, (ok, _)) := answer q v in (q, ok);
  AppendExemplars := answer;
  AppendFloatHistograms := answer;
  AppendHistograms := answer
|}.

Definition storeOf (es : list (N * Signal)) (bs : list (string * Bookmark)) : memStore :=
  mkMemStore (list_to_map es) (list_to_map bs).

(** A remote named [mimir] that accepts everything. *)
Definition mimir : scripted := mkScripted "mimir" [] [].

(** The bookmark name of the writer of component [c1] for that remote. *)
Definition c1Name : string := "metrics_write_to_mimir_parent_c1".

(** A store whose entries 1 to 9 are gone (expired) while the bookmark of
    the writer still stands at key 3. *)
Definition laggingStore : memStore :=
  storeOf [(10%N, Samples [1]); (11%N, Samples [2])] [(c1Name, mkBookmark 3)].

(** The same entries with the bookmark at key 11. *)
Definition caughtUpStore : memStore :=
  storeOf [(10%N, Samples [1]); (11%N, Samples [2])] [(c1Name, mkBookmark 11)].

(** A writer standing at key 10 of that store that has just reached the
    key, in front of a remote whose first answer is given. *)
Definition writerAt10 (first : bool * option error) : writer memStore scripted :=
  mkWriter "c1" 10%N (mkScripted "mimir" [first] []) laggingStore c1Name.

Definition freshKey : loopVars := mkLoopVars true true None.

End SimpleMem.

(** ** Package [component]: health and managed options *)

Module Component.

Inductive HealthType :=
| HealthTypeUnknown
| HealthTypeHealthy
| HealthTypeUnhealthy
| HealthTypeExited.

Record Health := mkHealth {
  HealthOf : HealthType;
  Message : string;
  UpdateTime : Z
}.

(** The fields of [component.Options] the sources read. *)
Record Options := mkOptions { ID : string; DataPath : string }.

(** [filepath.Join dir name] where the separator is the slash, and
    [path.Join dir name]: the elements from the first non-empty one on are
    joined by the separator and the result is cleaned; with no non-empty
    element the result is empty. *)
Definition filepath_Join (dir name : string) : string :=
  if negb (String.eqb dir "") then Go.Clean (Go.Join [dir; name] "/")
  else if negb (String.eqb name "") then Go.Clean name
  else "".

End Component.

(** ** Package [importsource]: the git import source *)

Module ImportSource.
Import Go.
Export Component.

(** Modelled from the spec: [vcs.GitAuthConfig], whose declaration is
    missing from the sources.  Section 4.2 lists the authentication modes
    none, basic, SSH key and personal access token. *)
Inductive GitAuthConfig :=
| AuthNone
| AuthBasic (username password : string)
| AuthSSHKey (username key : string)
| AuthPAT (token : string).

(** [vcs.GitRepoOptions], with the three fields [Update] fills in. *)
Record GitRepoOptions := mkGitRepoOptions {
  Repository : string;
  Revision : string;
  Auth : GitAuthConfig
}.

#[global] Instance GitAuthConfig_eq_dec : EqDecision GitAuthConfig.
Proof. solve_decision. Defined.
#[global] Instance GitRepoOptions_eq_dec : EqDecision GitRepoOptions.
Proof. solve_decision. Defined.

Record Arguments := mkArguments {
  argRepository : string;
  argRevision : string;
  argPath : string;
  argPullFrequency : Duration;
  argGitAuthConfig : GitAuthConfig
}.

#[global] Instance Arguments_eq_dec : EqDecision Arguments.
Proof. solve_decision. Defined.

(** The zero value of [Arguments] and [DefaultArguments]. *)
Definition zeroArguments : Arguments := mkArguments "" "" "" 0 AuthNone.
Definition DefaultArguments : Arguments := mkArguments "" "HEAD" "" (60 * Second) AuthNone.

(** Errors coming out of the git library: the message and whether
    [errors.As(err, &vcs.UpdateFailedError{})] holds. *)
Record giterror := mkGitError { errMessage : string; isUpdateFailed : bool }.

(** The git library [vcs] is not part of the sources.  [W] is the state of
    the world it acts on (remotes and the local disk), [R] the type of the
    repository handle [*vcs.GitRepo]; a nil handle is [None]. *)
Class Vcs (W R : Type) := {
  NewGitRepo : W -> string -> GitRepoOptions -> W * (option R * option giterror);
  RepoUpdate : W -> option R -> W * option giterror;
  RepoReadFile : W -> option R -> string -> string * option giterror
}.

Section Git.
Context {W R : Type} `{Vcs W R}.

(** [delivered] records, oldest first, the contents handed to the
    [onContentChange] callback.  [argsChanged] tells whether the one-slot
    channel holds a token. *)
Record ImportGit := mkImportGit {
  opts : Options;
  repo : option R;
  repoOpts : GitRepoOptions;
  args : Arguments;
  lastContent : string;
  argsChanged : bool;
  health : Health;
  delivered : list string
}.

Definition NewImportGit (managedOpts : Options) : ImportGit :=
  mkImportGit managedOpts None (mkGitRepoOptions "" "" AuthNone) zeroArguments
              "" false (mkHealth HealthTypeUnknown "" 0) [].

Definition setRepo (im : ImportGit) (r : option R) (o : GitRepoOptions) : ImportGit :=
  mkImportGit (opts im) r o (args im) (lastContent im) (argsChanged im)
              (health im) (delivered im).
Definition setHealth (im : ImportGit) (h : Health) : ImportGit :=
  mkImportGit (opts im) (repo im) (repoOpts im) (args im) (lastContent im)
              (argsChanged im) h (delivered im).
Definition setContent (im : ImportGit) (c : string) : ImportGit :=
  mkImportGit (opts im) (repo im) (repoOpts im) (args im) c (argsChanged im)
              (health im) (delivered im ++ [c]).
Definition setArgs (im : ImportGit) (a : Arguments) : ImportGit :=
  mkImportGit (opts im) (repo im) (repoOpts im) a (lastContent im) true
              (health im) (delivered im).

(** [p == nil] for a handle. *)
Definition isNil (r : option R) : bool :=
  match r with None => true | Some _ => false end.

(** [updateHealth]. *)
Definition updateHealth (now : Z) (im : ImportGit) (err : option giterror) : ImportGit :=
  match err with
  | Some e => setHealth im (mkHealth HealthTypeUnhealthy (errMessage e) now)
  | None => setHealth im (mkHealth HealthTypeHealthy "module updated" now)
  end.

(** [pollFile]. *)
Definition pollFile (w : W) (im : ImportGit) (a : Arguments)
    : W * ImportGit * option giterror :=
  let '(w, e) := RepoUpdate w (repo im) in
  match e with
  | Some e => (w, im, Some e)
  | None =>
      let '(content, e) := RepoReadFile w (repo im) (argPath a) in
      match e with
      | Some e => (w, im, Some e)
      | None =>
          if negb (String.eqb (lastContent im) content)
          then (w, setContent im content, None)
          else (w, im, None)
      end
  end.

(** One call of [vcs.NewGitRepo]: the storage path and the options. *)
Definition gitCall : Type := string * GitRepoOptions.

Definition optionsOf (a : Arguments) : GitRepoOptions :=
  mkGitRepoOptions (argRepository a) (argRevision a) (argGitAuthConfig a).

(** [Update]; the last component lists the calls of [vcs.NewGitRepo] it
    made.  The deferred [updateHealth] runs on every way out with the
    returned error. *)
Definition Update (now : Z) (w : W) (im : ImportGit) (newArgs : Arguments)
    : W * ImportGit * option giterror * list gitCall :=
  let repoPath := filepath_Join (DataPath (opts im)) "repo" in
  let repoOpts' := optionsOf newArgs in
  let '(w, im, ret, calls) :=
    if isNil (repo im)
       || negb (bool_decide (repoOpts' = repoOpts im)) then
      let '(w, (r, err)) := NewGitRepo w repoPath repoOpts' in
      match err with
      | Some e =>
          if isUpdateFailed e
          then (w, setRepo (updateHealth now im (Some e)) r repoOpts', None,
                [(repoPath, repoOpts')])
          else (w, im, Some e, [(repoPath, repoOpts')])
      | None => (w, setRepo im r repoOpts', None, [(repoPath, repoOpts')])
      end
    else (w, im, None, []) in
  match ret with
  | Some e => (w, updateHealth now im (Some e), Some e, calls)
  | None =>
      let '(w, im, perr) := pollFile w im newArgs in
      match perr with
      | Some e =>
          if isUpdateFailed e
          then (w, updateHealth now (setArgs im newArgs) None, None, calls)
          else (w, updateHealth now im (Some e), Some e, calls)
      | None => (w, updateHealth now (setArgs im newArgs) None, None, calls)
      end
  end.

(** The storage path of the call of [vcs.NewGitRepo] made by an [Update],
    if it made one. *)
Definition cloneDir (res : W * ImportGit * option giterror * list gitCall) : option string :=
  fst <$> head res.2.

End Git.

Arguments ImportGit : clear implicits.

End ImportSource.

(** *** A git library over a table of remotes, for running the import source *)

Module GitMem.
Import Go ImportSource.

(** Modelled from the spec: the git library [vcs], which is missing from
    the sources.  Following section 4.2, [NewGitRepo] leaves a working copy
    for the given options at the storage path, and reading a path yields the
    file content at the configured revision.  The world records which
    options each directory was last cloned with; the content of a file is a
    function of repository, revision and path. *)
Record world := mkWorld { clones : gmap string GitRepoOptions }.

Record handle := mkHandle { storagePath : string; handleOpts : GitRepoOptions }.

Definition contentAt (o : GitRepoOptions) (path : string) : string :=
  Repository o +:+ "@" +:+ Revision o +:+ ":" +:+ path.

#[global] Instance world_Vcs : Vcs world handle := {|
  NewGitRepo w path o :=
    (mkWorld (<[path := o]> (clones w)), (Some (mkHandle path o), None));
  RepoUpdate w r := (w, None);
  RepoReadFile w r path :=
    match r with
    | Some h => (contentAt (handleOpts h) path, None)
    | None => ("", Some (mkGitError "repository is not open" false))
    end
|}.

Definition emptyWorld : world := mkWorld ∅.

(** The import source of the node [import.git.mod], before any update. *)
Definition modSource : ImportGit handle :=
  NewImportGit (mkOptions "import.git.mod" "/data/import.git.mod").

(** Two configurations that differ in the repository only. *)
Definition argsA : Arguments :=
  mkArguments "https://git.example/a.git" "HEAD" "mod.river" (60 * Second) AuthNone.
Definition argsB : Arguments :=
  mkArguments "https://git.example/b.git" "HEAD" "mod.river" (60 * Second) AuthNone.

(** The world and the source after [Update] with [argsA] at time 1. *)
Definition afterA : world * ImportGit handle :=
  (Update 1 emptyWorld modSource argsA).1.1.

End GitMem.

(** ** Package [controller]: import config nodes and custom component nodes *)

Module Controller.
Import Go.
Export Component.

(** *** River syntax trees, as far as the nodes look into them *)

(** [ast.Stmt]: an attribute or a block.  A block has its dotted name, its
    label and body, and the byte offsets of its braces in the text. *)
Inductive Stmt :=
| AttributeStmt (name value : string)
| BlockStmtOf (b : BlockStmt)
with BlockStmt :=
| mkBlockStmt (Name : list string) (Label : string) (Body : list Stmt)
              (LCurlyPos RCurlyPos : Z).

Definition Name (b : BlockStmt) : list string := let 'mkBlockStmt n _ _ _ _ := b in n.
Definition Label (b : BlockStmt) : string := let 'mkBlockStmt _ l _ _ _ := b in l.
Definition Body (b : BlockStmt) : list Stmt := let 'mkBlockStmt _ _ y _ _ := b in y.
Definition LCurlyPos (b : BlockStmt) : Z := let 'mkBlockStmt _ _ _ p _ := b in p.
Definition RCurlyPos (b : BlockStmt) : Z := let 'mkBlockStmt _ _ _ _ p := b in p.

(** [ast.File]: the top-level statements. *)
Definition File := list Stmt.

Definition GetBlockName (b : BlockStmt) : string := Join (Name b) ".".

(** [vm.Evaluator], built by [vm.New] from a body. *)
Record Evaluator := vmNew { evalBody : list Stmt }.

(** *** Component identifiers *)

Definition ComponentID := list string.

(** Modelled from the spec: [BlockComponentID], whose definition is missing
    from the sources.  By section 3 the identity of a block is its name
    followed by its label when it has one. *)
Definition BlockComponentID (b : BlockStmt) : ComponentID :=
  if String.eqb (Label b) "" then Name b else (Name b ++ [Label b])%list.

(** Modelled from the spec: [ComponentID.Equals], missing from the sources;
    section 3 speaks of equality over identity, which is elementwise
    equality of the two sequences. *)
Fixpoint Equals (id other : ComponentID) : bool :=
  match id, other with
  | [], [] => true
  | x :: id', y :: other' => String.eqb x y && Equals id' other'
  | _, _ => false
  end.

(** [ComponentID.String]: the parts joined by dots. *)
Definition IDString (id : ComponentID) : string := Join id ".".

(** The sentinel error [ErrUnevaluated]; its declaration is missing from the
    sources, so it is represented by its name. *)
Definition ErrUnevaluated : error := "ErrUnevaluated".

(** *** Declares and import sources *)

(** [Declare_], built by [NewDeclare] from the block and the text between
    its braces. *)
Record Declare_ := NewDeclare { declareBlock : BlockStmt; declareContent : string }.

Inductive SourceType := File_ | HTTP | Git.

(** Modelled from the spec: the block names of the three import kinds and
    [GetSourceType], which belong to the part of [importsource] that is
    missing from the sources (section 4.1 names the kinds). *)
Definition BlockImportFile : string := "import.file".
Definition BlockImportHTTP : string := "import.http".
Definition BlockImportGit : string := "import.git".

Definition GetSourceType (fullName : string) : SourceType :=
  if String.eqb fullName BlockImportFile then File_
  else if String.eqb fullName BlockImportHTTP then HTTP
  else Git.

(** The top-level blocks of a file, the declare blocks among them, and the
    first declare block that carries a given label. *)
Fixpoint blocksOf (f : File) : list BlockStmt :=
  match f with
  | [] => []
  | BlockStmtOf b :: rest => b :: blocksOf rest
  | AttributeStmt _ _ :: rest => blocksOf rest
  end.

Definition isDeclare (b : BlockStmt) : bool := String.eqb (Join (Name b) ".") "declare".

Definition isImport (b : BlockStmt) : bool :=
  let fullName := Join (Name b) "." in
  String.eqb fullName BlockImportFile
  || String.eqb fullName BlockImportGit
  || String.eqb fullName BlockImportHTTP.

Definition firstDeclare (f : File) (l : string) : option BlockStmt :=
  List.find (fun b => isDeclare b && String.eqb (Label b) l) (blocksOf f).

(** The text a declare is built with: [content[LCurly+1 : RCurly-1]]. *)
Definition bodyText (content : string) (b : BlockStmt) : string :=
  String.substring (Z.to_nat (LCurlyPos b + 1))
                   (Z.to_nat (RCurlyPos b - 1 - (LCurlyPos b + 1))) content.

(** The fields of [ComponentGlobals] the nodes read.  The callback
    [OnNodeWithDependantsUpdate] is represented by the events below. *)
Record ComponentGlobals := mkGlobals {
  ControllerID : string;
  GlobalsDataPath : string
}.

(** What a node tells its surroundings: a call of
    [OnNodeWithDependantsUpdate] with the node whose ID is given, and a
    token sent on [importChildrenUpdateChan]. *)
Inductive event :=
| NodeUpdated (nodeID : string)
| ChildrenChanged (nodeID : string).

(** The import source behind a node, [importsource.ImportSource], and the
    River parser.  [NewImportSource] never yields nil.  [SourceEvaluate]
    answers with the new source, the content it hands to its
    [onContentChange] callback during the call (if any) and its error. *)
Class Imports (Src Scope : Type) := {
  NewImportSource : SourceType -> Options -> Evaluator -> Src;
  SourceEvaluate : Src -> Scope -> Src * option string * option error;
  ParseFile : string -> string -> File + error;
  emptyScope : Scope
}.

End Controller.

(** *** [ImportConfigNode] *)

Module ImportConfigNode.
Import Go.
Export Controller.

Section Node.
Context {Src Scope : Type} `{Imports Src Scope}.

(** The node.  Its two maps are nil until [onContentUpdate] makes them.
    A nil [source] is [None]. *)
#[warnings="-register-all"]
Inductive node := mkNode {
  id : ComponentID;
  label : string;
  nodeID : string;
  componentName : string;
  globalID : string;
  globals : ComponentGlobals;
  block : BlockStmt;
  source : option Src;
  importConfigNodesChildren : option (gmap string node);
  importChildrenRunning : bool;
  importedDeclares : option (gmap string Declare_);
  inContentUpdate : bool;
  lastUpdateTime : Z;
  evalHealth : Health;
  runHealth : Health
}.

Definition setSource (cn : node) (s : option Src) : node :=
  mkNode (id cn) (label cn) (nodeID cn) (componentName cn) (globalID cn) (globals cn)
         (block cn) s (importConfigNodesChildren cn) (importChildrenRunning cn)
         (importedDeclares cn) (inContentUpdate cn) (lastUpdateTime cn)
         (evalHealth cn) (runHealth cn).
Definition setChildren (cn : node) (m : option (gmap string node)) : node :=
  mkNode (id cn) (label cn) (nodeID cn) (componentName cn) (globalID cn) (globals cn)
         (block cn) (source cn) m (importChildrenRunning cn)
         (importedDeclares cn) (inContentUpdate cn) (lastUpdateTime cn)
         (evalHealth cn) (runHealth cn).
Definition setDeclares (cn : node) (m : option (gmap string Declare_)) : node :=
  mkNode (id cn) (label cn) (nodeID cn) (componentName cn) (globalID cn) (globals cn)
         (block cn) (source cn) (importConfigNodesChildren cn) (importChildrenRunning cn)
         m (inContentUpdate cn) (lastUpdateTime cn)
         (evalHealth cn) (runHealth cn).
Definition setInContentUpdate (cn : node) (b : bool) : node :=
  mkNode (id cn) (label cn) (nodeID cn) (componentName cn) (globalID cn) (globals cn)
         (block cn) (source cn) (importConfigNodesChildren cn) (importChildrenRunning cn)
         (importedDeclares cn) b (lastUpdateTime cn)
         (evalHealth cn) (runHealth cn).
Definition setLastUpdateTime (cn : node) (t : Z) : node :=
  mkNode (id cn) (label cn) (nodeID cn) (componentName cn) (globalID cn) (globals cn)
         (block cn) (source cn) (importConfigNodesChildren cn) (importChildrenRunning cn)
         (importedDeclares cn) (inContentUpdate cn) t
         (evalHealth cn) (runHealth cn).
Definition setEvalHealth (cn : node) (h : Health) : node :=
  mkNode (id cn) (label cn) (nodeID cn) (componentName cn) (globalID cn) (globals cn)
         (block cn) (source cn) (importConfigNodesChildren cn) (importChildrenRunning cn)
         (importedDeclares cn) (inContentUpdate cn) (lastUpdateTime cn)
         h (runHealth cn).
Definition setRunHealth (cn : node) (h : Health) : node :=
  mkNode (id cn) (label cn) (nodeID cn) (componentName cn) (globalID cn) (globals cn)
         (block cn) (source cn) (importConfigNodesChildren cn) (importChildrenRunning cn)
         (importedDeclares cn) (inContentUpdate cn) (lastUpdateTime cn)
         (evalHealth cn) h.

(** [getImportManagedOptions], as far as [Options] is represented. *)
Definition getImportManagedOptions (g : ComponentGlobals) (globalID : string) : Options :=
  mkOptions globalID (filepath_Join (GlobalsDataPath g) globalID).

(** [NewImportConfigNode]; [now] is the reading of the clock.  The
    composite literal sets neither map. *)
Definition NewImportConfigNode (now : Z) (block : BlockStmt) (g : ComponentGlobals)
    (sourceType : SourceType) : node :=
  let id := BlockComponentID block in
  let nodeID := IDString id in
  let initHealth := mkHealth HealthTypeUnknown "component created" now in
  let globalID :=
    if negb (String.eqb (ControllerID g) "")
    then filepath_Join (ControllerID g) nodeID else nodeID in
  let managedOpts := getImportManagedOptions g globalID in
  mkNode id (Label block) (IDString (BlockComponentID block)) (GetBlockName block)
         globalID g block
         (Some (NewImportSource sourceType managedOpts (vmNew (Body block))))
         None false None false 0 initHealth initHealth.

(** [processDeclareBlock]: a label that is already present is reported
    and skipped.  The text is sliced before the entry is assigned. *)
Definition processDeclareBlock (cn : node) (stmt : BlockStmt) (content : string)
    : outcome node :=
  match importedDeclares cn !! Label stmt with
  | Some _ => Done cn
  | None =>
      body ← slice content (LCurlyPos stmt + 1) (RCurlyPos stmt - 1);
      m ← mapAssign (importedDeclares cn) (Label stmt) (NewDeclare stmt body);
      Done (setDeclares cn m)
  end.

(** [processImportBlock].  The child's callback is the parent's
    [OnChildrenContentUpdate]. *)
Definition processImportBlock (now : Z) (cn : node) (stmt : BlockStmt) (fullName : string)
    : outcome node :=
  let sourceType := GetSourceType fullName in
  match importConfigNodesChildren cn !! Label stmt with
  | Some _ => Done cn
  | None =>
      m ← mapAssign (importConfigNodesChildren cn) (Label stmt)
                    (NewImportConfigNode now stmt (globals cn) sourceType);
      Done (setChildren cn m)
  end.

(** [processNodeBody]: anything but a declare or an import block is
    reported and skipped. *)
Fixpoint processNodeBody (now : Z) (cn : node) (body : File) (content : string)
    : outcome node :=
  match body with
  | [] => Done cn
  | BlockStmtOf stmt :: rest =>
      let fullName := Join (Name stmt) "." in
      cn ← (if String.eqb fullName "declare" then processDeclareBlock cn stmt content
            else if String.eqb fullName BlockImportFile
                    || String.eqb fullName BlockImportGit
                    || String.eqb fullName BlockImportHTTP
                 then processImportBlock now cn stmt fullName
                 else Done cn);
      processNodeBody now cn rest content
  | AttributeStmt _ _ :: rest => processNodeBody now cn rest content
  end.

(** The loop of [OnChildrenContentUpdate]: the child's declares are
    assigned one by one under [<child label>.<declare label>]. *)
Definition surface (childLabel : string) (m : option (gmap string Declare_))
    (declares : list (string * Declare_)) : outcome (option (gmap string Declare_)) :=
  foldr (fun '(importedDeclareLabel, importedDeclare) acc =>
           m ← acc;
           mapAssign m (childLabel +:+ "." +:+ importedDeclareLabel) importedDeclare)
        (Done m) declares.

(** [OnChildrenContentUpdate] for a child that is an import config node. *)
Definition OnChildrenContentUpdate (cn child : node) : outcome (node * list event) :=
  m ← surface (label child) (importedDeclares cn) (mapRange (importedDeclares child));
  let cn := setDeclares cn m in
  Done (cn, if negb (inContentUpdate cn) then [NodeUpdated (nodeID cn)] else []).

(** The evaluation of a nested import node is taken as given: it panics,
    or it answers with the child after the call, whether the child invoked
    its [OnNodeWithDependantsUpdate] callback, and the error of
    [Evaluate]. *)
Variable childEvaluate : node -> Scope -> outcome (node * bool * option error).

(** [evaluateChildren], over the entries the loop visits.  The map holds
    pointers: what the call does to a child shows in the map. *)
Fixpoint evaluateChildrenIn (cn : node) (children : list (string * node))
    : outcome (node * list event * option error) :=
  match children with
  | [] => Done (cn, [], None)
  | (k, child) :: rest =>
      r ← childEvaluate child emptyScope;
      let '(child', called, err) := (r : node * bool * option error) in
      let cn := setChildren cn (<[k := child']> <$> importConfigNodesChildren cn) in
      '(cn, evs) ← (if called then OnChildrenContentUpdate cn child' else Done (cn, []));
      match err with
      | Some e =>
          Done (cn, evs,
                Some ("imported node " +:+ label child +:+ " failed to evaluate, " +:+ e))
      | None =>
          '(cn, evs', err) ← evaluateChildrenIn cn rest;
          Done (cn, (evs ++ evs')%list, err)
      end
  end.

Definition evaluateChildren (cn : node) : outcome (node * list event * option error) :=
  evaluateChildrenIn cn (mapRange (importConfigNodesChildren cn)).

(** [onContentUpdate].  The deferred function clears [inContentUpdate] on
    every way out. *)
Definition onContentUpdate (now : Z) (cn : node) (content : string)
    : outcome (node * list event) :=
  let cn := setChildren cn mapMake in
  let cn := setInContentUpdate cn true in
  let cn := setDeclares cn mapMake in
  match ParseFile (label cn) content with
  | inr _ => Done (setInContentUpdate cn false, [])
  | inl file =>
      cn ← processNodeBody now cn file content;
      '(cn, evs, err) ← evaluateChildren cn;
      match err with
      | Some _ => Done (setInContentUpdate cn false, evs)
      | None =>
          let evs := (evs ++ (if importChildrenRunning cn
                              then [ChildrenChanged (nodeID cn)] else []))%list in
          let cn := setLastUpdateTime cn now in
          Done (setInContentUpdate cn false, (evs ++ [NodeUpdated (nodeID cn)])%list)
      end
  end.

(** [evaluate]: the source is evaluated; a content change it observes
    reaches the node through [onContentUpdate] before the call returns. *)
Definition evaluate (now : Z) (cn : node) (scope : Scope)
    : outcome (node * list event * option error) :=
  match source cn with
  | None => Panicked "invalid memory address or nil pointer dereference"
  | Some src =>
      let '(src, content, err) := SourceEvaluate src scope in
      let cn := setSource cn (Some src) in
      match content with
      | Some c => '(cn, evs) ← onContentUpdate now cn c; Done (cn, evs, err)
      | None => Done (cn, [], err)
      end
  end.

(** [Evaluate]. *)
Definition Evaluate (now : Z) (cn : node) (scope : Scope)
    : outcome (node * list event * option error) :=
  '(cn, evs, err) ← evaluate now cn scope;
  match err with
  | None =>
      Done (setEvalHealth cn (mkHealth HealthTypeHealthy "component evaluated" now), evs, err)
  | Some e =>
      let msg := "component evaluation failed: " +:+ e in
      Done (setEvalHealth cn (mkHealth HealthTypeUnhealthy msg now), evs, err)
  end.

(** The states a node can be in: it was constructed, and then its content
    was updated, it was evaluated, or a child surfaced its declares, any
    number of times. *)
Inductive reachable : node -> Prop :=
| reach_new now block g sourceType :
    reachable (NewImportConfigNode now block g sourceType)
| reach_content now cn content cn' evs :
    reachable cn ->
    onContentUpdate now cn content = Done (cn', evs) ->
    reachable cn'
| reach_evaluate now cn scope cn' evs err :
    reachable cn ->
    Evaluate now cn scope = Done (cn', evs, err) ->
    reachable cn'
| reach_child cn child cn' evs :
    reachable cn ->
    OnChildrenContentUpdate cn child = Done (cn', evs) ->
    reachable cn'.

(** How a call of [Run] begins: it returns at once with an error, or it
    passes its guard, records the run health and starts the source (and
    the children, if there are any). *)
Inductive started :=
| Returned (e : error)
| Running (cn : node) (withChildren : bool).

(** [Run], up to the point where it waits for the source or the children
    to finish. *)
Definition Run (now : Z) (cn : node) : started :=
  let importChildren := mapLen (importConfigNodesChildren cn) in
  match source cn with
  | None => Returned ErrUnevaluated
  | Some _ =>
      Running (setRunHealth cn (mkHealth HealthTypeHealthy "started component" now))
              (0 <? Z.of_nat importChildren)
  end.

(** [GetImportedDeclareByLabel]. *)
Definition GetImportedDeclareByLabel (cn : node) (declareLabel : string)
    : option Declare_ * option error :=
  match importedDeclares cn !! declareLabel with
  | Some declare => (Some declare, None)
  | None => (None, Some ("declareLabel " +:+ declareLabel +:+
                         " not found in imported node " +:+ label cn))
  end.

(** [Exports]: this node has no exports. *)
Definition Exports {E : Type} (cn : node) : option E := None.

Definition ImportedDeclares (cn : node) : option (gmap string Declare_) :=
  importedDeclares cn.

End Node.

Arguments node : clear implicits.
Arguments started : clear implicits.

End ImportConfigNode.

(** *** [CustomComponentNode] *)

Module CustomComponentNode.
Import Go.
Export Controller.

(** [CustomComponentConfig], with the two fields [evaluate] reads. *)
Record CustomComponentConfig := mkConfig {
  configDeclareContent : string;
  additionalDeclareContents : gmap string string
}.

(** What the node relies on from outside the sources: the River evaluator
    ([cn.eval.Evaluate]), the module component ([module.NewModuleComponentV2]
    and [LoadFlowSource]) and [reflect.DeepEqual] on exports.  [Args] is the
    type of decoded arguments, [MC] the managed module component, [E] the
    type of exports; nil exports are [None].  [LoadFlowSource] answers with
    the exports the component publishes through [OnStateChange] during the
    call, oldest first. *)
Class Modules (Scope Args MC E : Type) := {
  EvaluateArgs : Evaluator -> Scope -> Args + error;
  NewModuleComponentV2 : Options -> MC + error;
  LoadFlowSource : MC -> Args -> string -> gmap string string
                   -> MC * list (option E) * option error;
  DeepEqual : option E -> option E -> bool
}.

(** [strings.Split s "."]. *)
Fixpoint splitDot (s : string) : list string :=
  match s with
  | EmptyString => [""]
  | String c s' =>
      if Ascii.eqb c "."%char then "" :: splitDot s'
      else match splitDot s' with
           | [] => [String c ""]
           | p :: ps => String c p :: ps
           end
  end.

(** [ExtractImportAndDeclareLabels]. *)
Definition ExtractImportAndDeclareLabels (componentName : string) : string * string :=
  match splitDot componentName with
  | [] => ("", "")
  | [p0] => ("", p0)
  | p0 :: p1 :: _ => (p0, p1)
  end.

Section Node.
Context {Scope Args MC E : Type} `{Modules Scope Args MC E}.

Record node := mkNode {
  id : ComponentID;
  globalID : string;
  label : string;
  componentName : string;
  importLabel : string;
  declareLabel : string;
  nodeID : string;
  managedOpts : Options;
  lastUpdateTime : Z;
  block : BlockStmt;
  eval : Evaluator;
  managed : option MC;
  args : option Args;
  evalHealth : Health;
  runHealth : Health;
  exports : option E
}.

Definition setBlock (cn : node) (b : BlockStmt) (ev : Evaluator) : node :=
  mkNode (id cn) (globalID cn) (label cn) (componentName cn) (importLabel cn)
         (declareLabel cn) (nodeID cn) (managedOpts cn) (lastUpdateTime cn)
         b ev (managed cn) (args cn) (evalHealth cn) (runHealth cn) (exports cn).
Definition setManaged (cn : node) (m : option MC) : node :=
  mkNode (id cn) (globalID cn) (label cn) (componentName cn) (importLabel cn)
         (declareLabel cn) (nodeID cn) (managedOpts cn) (lastUpdateTime cn)
         (block cn) (eval cn) m (args cn) (evalHealth cn) (runHealth cn) (exports cn).
Definition setEvalHealth (cn : node) (h : Health) : node :=
  mkNode (id cn) (globalID cn) (label cn) (componentName cn) (importLabel cn)
         (declareLabel cn) (nodeID cn) (managedOpts cn) (lastUpdateTime cn)
         (block cn) (eval cn) (managed cn) (args cn) h (runHealth cn) (exports cn).
Definition setRunHealth (cn : node) (h : Health) : node :=
  mkNode (id cn) (globalID cn) (label cn) (componentName cn) (importLabel cn)
         (declareLabel cn) (nodeID cn) (managedOpts cn) (lastUpdateTime cn)
         (block cn) (eval cn) (managed cn) (args cn) (evalHealth cn) h (exports cn).
Definition storeExports (cn : node) (e : option E) : node :=
  mkNode (id cn) (globalID cn) (label cn) (componentName cn) (importLabel cn)
         (declareLabel cn) (nodeID cn) (managedOpts cn) (lastUpdateTime cn)
         (block cn) (eval cn) (managed cn) (args cn) (evalHealth cn) (runHealth cn) e.
Definition setLastUpdateTime (cn : node) (t : Z) : node :=
  mkNode (id cn) (globalID cn) (label cn) (componentName cn) (importLabel cn)
         (declareLabel cn) (nodeID cn) (managedOpts cn) t
         (block cn) (eval cn) (managed cn) (args cn) (evalHealth cn) (runHealth cn)
         (exports cn).

(** [getDeclareManagedOptions], as far as [Options] is represented. *)
Definition getDeclareManagedOptions (g : ComponentGlobals) (globalID : string) : Options :=
  mkOptions globalID (filepath_Join (GlobalsDataPath g) globalID).

(** [NewCustomComponentNode]. *)
Definition NewCustomComponentNode (now : Z) (g : ComponentGlobals) (b : BlockStmt) : node :=
  let id := BlockComponentID b in
  let nodeID := IDString id in
  let initHealth := mkHealth HealthTypeUnknown "node declare component created" now in
  let globalID :=
    if negb (String.eqb (ControllerID g) "")
    then filepath_Join (ControllerID g) nodeID else nodeID in
  let componentName := GetBlockName b in
  let '(importLabel, declareLabel) := ExtractImportAndDeclareLabels componentName in
  mkNode id globalID (Label b) componentName importLabel declareLabel nodeID
         (getDeclareManagedOptions g globalID) 0
         b (vmNew (Body b)) None None initHealth initHealth None.

(** [UpdateBlock]. *)
Definition UpdateBlock (cn : node) (b : BlockStmt) : outcome node :=
  if negb (Equals (BlockComponentID b) (id cn))
  then Panicked "UpdateBlock called with an River block with a different component ID"
  else Done (setBlock cn b (vmNew (Body b))).

(** [setExports]: unchanged exports are ignored. *)
Definition setExports (now : Z) (cn : node) (e : option E) : node * list event :=
  let '(cn, changed) :=
    if negb (DeepEqual (exports cn) e) then (storeExports cn e, true) else (cn, false) in
  if changed
  then (setLastUpdateTime cn now, [NodeUpdated (nodeID cn)])
  else (cn, []).

(** The exports published during [LoadFlowSource] reach the node through
    [OnStateChange], which is [setExports]. *)
Fixpoint publish (now : Z) (cn : node) (es : list (option E)) : node * list event :=
  match es with
  | [] => (cn, [])
  | e :: rest =>
      let '(cn, evs) := setExports now cn e in
      let '(cn, evs') := publish now cn rest in
      (cn, (evs ++ evs')%list)
  end.

(** The node's [GetCustomComponentConfig] function. *)
Variable GetCustomComponentConfig : node -> CustomComponentConfig + error.

(** [evaluate]. *)
Definition evaluate (now : Z) (cn : node) (scope : Scope)
    : node * list event * option error :=
  match EvaluateArgs (eval cn) scope with
  | inr e => (cn, [], Some ("decoding River: " +:+ e))
  | inl args =>
      let built :=
        match managed cn with
        | None =>
            match NewModuleComponentV2 (managedOpts cn) with
            | inr e => inr ("building custom component: " +:+ e)
            | inl m => inl (setManaged cn (Some m), m)
            end
        | Some m => inl (cn, m)
        end in
      match built with
      | inr e => (cn, [], Some e)
      | inl (cn, m) =>
          match GetCustomComponentConfig cn with
          | inr e => (cn, [], Some ("retrieving custom component config: " +:+ e))
          | inl cfg =>
              let '(m, published, err) :=
                LoadFlowSource m args (configDeclareContent cfg)
                               (additionalDeclareContents cfg) in
              let '(cn, evs) := publish now (setManaged cn (Some m)) published in
              match err with
              | Some e => (cn, evs, Some ("updating component: " +:+ e))
              | None => (cn, evs, None)
              end
          end
      end
  end.

(** [Evaluate]. *)
Definition Evaluate (now : Z) (cn : node) (scope : Scope)
    : node * list event * option error :=
  let '(cn, evs, err) := evaluate now cn scope in
  match err with
  | None =>
      (setEvalHealth cn (mkHealth HealthTypeHealthy "component evaluated" now), evs, err)
  | Some e =>
      let msg := "component evaluation failed: " +:+ e in
      (setEvalHealth cn (mkHealth HealthTypeUnhealthy msg now), evs, err)
  end.

(** How a call of [Run] begins: it returns at once with an error, or it
    passes its guard, records the run health and runs the flow
    controller of the managed component. *)
Inductive started :=
| Returned (e : error)
| Running (cn : node).

(** [Run], up to the call of [RunFlowController]. *)
Definition Run (now : Z) (cn : node) : started :=
  match managed cn with
  | None => Returned ErrUnevaluated
  | Some _ =>
      Running (setRunHealth cn (mkHealth HealthTypeHealthy "started custom component" now))
  end.

(** [Exports]. *)
Definition Exports (cn : node) : option E := exports cn.

End Node.

Arguments node : clear implicits.
Arguments started : clear implicits.

End CustomComponentNode.

(** *** Stand-ins for the River parser, the import sources and the module
    component, for running the nodes *)

Module ControllerMem.
Import Go Controller.

(** The double quote and the newline character, and a quoted label. *)
Definition dquote : string := String (ascii_of_nat 34) "".
Definition newline : string := String (ascii_of_nat 10) "".
Definition quoted (s : string) : string := dquote +:+ s +:+ dquote.

(** Three module texts: one declare [a]; two declares [b], one per line;
    a declare whose body is not closed. *)
Definition textA : string := "declare " +:+ quoted "a" +:+ " { z = 0 }".
Definition textDup : string :=
  "declare " +:+ quoted "b" +:+ " { x = 1 }" +:+ newline
  +:+ "declare " +:+ quoted "b" +:+ " { y = 2 }".
Definition textBroken : string := "declare " +:+ quoted "c" +:+ " { ".

(** Their syntax trees, with the offsets of the braces in the text. *)
Definition blockA : BlockStmt :=
  mkBlockStmt ["declare"] "a" [AttributeStmt "z" "0"] 12 20.
Definition blockB1 : BlockStmt :=
  mkBlockStmt ["declare"] "b" [AttributeStmt "x" "1"] 12 20.
Definition blockB2 : BlockStmt :=
  mkBlockStmt ["declare"] "b" [AttributeStmt "y" "2"] 34 42.

Definition fileA : File := [BlockStmtOf blockA].
Definition fileDup : File := [BlockStmtOf blockB1; BlockStmtOf blockB2].

(** An import source that remembers how it was built and the content it
    last saw; evaluating it against a scope reads the text bound to the
    variable [content], if there is one. *)
Record src := mkSrc {
  srcType : SourceType;
  srcOpts : Options;
  srcEval : Evaluator;
  srcLast : string
}.

Definition scope := gmap string string.

(** Modelled from the spec: the River parser and the import sources, which
    are outside the sources.  The parser knows the module texts above and
    rejects every other text; a source reports a content change when the
    text it reads differs from the last one, as section 4.2 describes. *)
#[global] Instance mem_Imports : Imports src scope := {|
  NewImportSource t o e := mkSrc t o e "";
  SourceEvaluate s sc :=
    match sc !! "content" with
    | Some c =>
        if String.eqb c (srcLast s) then (s, None, None)
        else (mkSrc (srcType s) (srcOpts s) (srcEval s) c, Some c, None)
    | None => (s, None, Some "missing required attribute")
    end;
  ParseFile _ content :=
    if String.eqb content textA then inl fileA
    else if String.eqb content textDup then inl fileDup
    else inr "syntax error";
  emptyScope := ∅
|}.

Definition importBlock : BlockStmt :=
  mkBlockStmt ["import"; "git"] "mod" [AttributeStmt "repository" "r"] 17 40.

Definition rootGlobals : ComponentGlobals := mkGlobals "" "/data".

(** A freshly constructed import node, on which nothing was called. *)
Definition freshImport : ImportConfigNode.node src :=
  ImportConfigNode.NewImportConfigNode 0 importBlock rootGlobals Git.

(** Nested imports play no part in the examples. *)
Definition noChild (c : ImportConfigNode.node src) (_ : scope)
    : outcome (ImportConfigNode.node src * bool * option error) := Done (c, false, None).

(** The import node after the content [textA] arrived. *)
Definition importWithA : ImportConfigNode.node src :=
  match ImportConfigNode.onContentUpdate noChild 1 freshImport textA with
  | Done (cn, _) => cn
  | Panicked _ => freshImport
  end.

(** Modelled from the spec: the evaluator and the module component behind a
    custom component node, which are outside the sources.  Arguments are the
    scope's variables; the module component keeps the text it was loaded
    with; exports are a map from names to numbers, compared structurally. *)
#[global] Instance mem_Modules
  : CustomComponentNode.Modules scope (gmap string string) string (gmap string Z) := {|
  CustomComponentNode.EvaluateArgs _ sc := inl sc;
  CustomComponentNode.NewModuleComponentV2 _ := inl "";
  CustomComponentNode.LoadFlowSource _ _ content _ := (content, [], None);
  CustomComponentNode.DeepEqual a b := bool_decide (a = b)
|}.

Definition customBlock : BlockStmt :=
  mkBlockStmt ["mod"; "test"] "one" [AttributeStmt "input" "1"] 15 27.

Definition customNode := CustomComponentNode.node (gmap string string) string (gmap string Z).

(** A freshly constructed custom component node. *)
Definition freshCustom : customNode :=
  CustomComponentNode.NewCustomComponentNode 0 rootGlobals customBlock.

(** The same block with another attribute value, and a block with another
    label. *)
Definition customBlock' : BlockStmt :=
  mkBlockStmt ["mod"; "test"] "one" [AttributeStmt "input" "2"] 15 27.
Definition otherBlock : BlockStmt :=
  mkBlockStmt ["mod"; "test"] "two" [AttributeStmt "input" "1"] 15 27.

(** A config lookup that finds no declare for the node. *)
Definition noConfig (cn : customNode) : CustomComponentNode.CustomComponentConfig + error :=
  inr ("declareLabel " +:+ CustomComponentNode.declareLabel cn +:+ " not found").

(** A config lookup that finds the declare. *)
Definition someConfig (cn : customNode) : CustomComponentNode.CustomComponentConfig + error :=
  inl (CustomComponentNode.mkConfig "export { }" ∅).

End ControllerMem.

(** ** Further operations of the packages *)

(** *** The remaining methods of the appender *)

Module LinearOps.
Import Go Linear.

(** Exemplars, histograms and metadata are handed over as opaque values;
    the methods below do not look at them. *)
Definition opaque := list Z.

(** One call on an appender, with the reading of the clock where the
    method takes one. *)
Inductive call :=
| CallAppend (now : Z) (ref : SeriesRef) (lbls : Labels) (t : Z) (v : float64)
| CallAppendExemplar (ref : SeriesRef) (lbls : Labels) (e : opaque)
| CallAppendHistogram (ref : SeriesRef) (lbls : Labels) (t : Z) (h fh : opaque)
| CallUpdateMetadata (ref : SeriesRef) (lbls : Labels) (m : opaque)
| CallRollback
| CallCommit.

Section Ops.
Variable sizeOf : Sample -> Z.
Context {D : Type} `{QueueStore D}.

(** [appender.Rollback] does nothing. *)
Definition Rollback (c : Queue D) (a : appender) : Queue D * appender * option error :=
  (c, a, None).

(** [appender.AppendExemplar]: the body is commented out in the source;
    what is left returns [0, nil]. *)
Definition AppendExemplar (c : Queue D) (a : appender)
    (ref : SeriesRef) (lbls : Labels) (e : opaque)
    : Queue D * appender * (SeriesRef * option error) :=
  (c, a, (0, None)).

(** [appender.AppendHistogram]: likewise. *)
Definition AppendHistogram (c : Queue D) (a : appender)
    (ref : SeriesRef) (lbls : Labels) (t : Z) (h fh : opaque)
    : Queue D * appender * (SeriesRef * option error) :=
  (c, a, (0, None)).

(** [appender.UpdateMetadata]. *)
Definition UpdateMetadata (c : Queue D) (a : appender)
    (ref : SeriesRef) (lbls : Labels) (m : opaque)
    : Queue D * appender * (SeriesRef * option error) :=
  (c, a, (0, None)).

Definition step (st : Queue D * appender) (k : call) : Queue D * appender :=
  let '(c, a) := st in
  match k with
  | CallAppend now ref lbls t v => (Append sizeOf now c a ref lbls t v).1
  | CallAppendExemplar ref lbls e => (AppendExemplar c a ref lbls e).1
  | CallAppendHistogram ref lbls t h fh => (AppendHistogram c a ref lbls t h fh).1
  | CallUpdateMetadata ref lbls m => (UpdateMetadata c a ref lbls m).1
  | CallRollback => (Rollback c a).1
  | CallCommit => (Commit c a).1
  end.

(** A sequence of calls on one appender, with no other user of
    [LinearPool] taking the appender's batch in between. *)
Definition run (st : Queue D * appender) (calls : list call) : Queue D * appender :=
  foldl step st calls.

End Ops.

(** The samples of a call that pass the threshold [Append] computes for an
    appender with the given TTL. *)
Definition accepted (ttl : Duration) (k : call) : list Sample :=
  match k with
  | CallAppend now _ lbls t v =>
      if t <? wrap64 (now - Seconds_int64 ttl) then [] else [mkSample lbls t v]
  | _ => []
  end.

(** The batch counts what it holds. *)
Definition counted (a : appender) : Prop :=
  totalMetrics (l a) = Z.of_nat (length (metrics (l a))).

(** Calls on an appender with a TTL of one hour: a sample one second old,
    an exemplar, a sample more than three years old, a commit. *)
Definition sampleCalls : list call :=
  [ CallAppend 1700000000000 1 up 1699999999000 1;
    CallAppendExemplar 1 up [1];
    CallAppend 1700000015000 1 up 1600000000000 1;
    CallCommit ].

End LinearOps.

(** *** The remaining methods of the git import source *)

Module ImportSourceOps.
Import Go ImportSource.

Section Git.
Context {W R : Type} `{Vcs W R}.

(** [tickPollFile]: one tick of the run loop. *)
Definition tickPollFile (now : Z) (w : W) (im : ImportGit R) : W * ImportGit R :=
  let '(w, im, err) := pollFile w im (args im) in
  (w, updateHealth now im err).

(** [Evaluate].  [decoded] is what [im.eval.Evaluate(scope, &arguments)]
    yields for the scope: the arguments, or an error.  Errors are wrapped
    with [%w], which keeps what [errors.As] sees. *)
Definition Evaluate (now : Z) (w : W) (im : ImportGit R) (decoded : Arguments + giterror)
    : W * ImportGit R * option giterror * list gitCall :=
  match decoded with
  | inr e => (w, im, Some (mkGitError ("decoding River: " +:+ errMessage e) (isUpdateFailed e)), [])
  | inl arguments =>
      if bool_decide (args im = arguments) then (w, im, None, [])
      else
        let '(w, im, err, calls) := Update now w im arguments in
        match err with
        | Some e =>
            (w, im, Some (mkGitError ("updating component: " +:+ errMessage e)
                                     (isUpdateFailed e)), calls)
        | None => (w, im, None, calls)
        end
  end.

(** [CurrentHealth]. *)
Definition CurrentHealth (im : ImportGit R) : Health := health im.

(** [Arguments]. *)
Definition GetArguments (im : ImportGit R) : Arguments := args im.

(** [updateTicker]: the ticker is represented by its period; no ticker is
    [None]. *)
Definition updateTicker (pullFrequency : Duration) (ticker : option Duration)
    : option Duration :=
  if 0 <? pullFrequency then Some pullFrequency else None.

(** The states of an import source: it was built by [NewImportGit], and then
    updated, evaluated and polled any number of times, each time in
    whatever state the repositories and the disk are. *)
Inductive reachable : ImportGit R -> Prop :=
| reach_new managedOpts : reachable (NewImportGit managedOpts)
| reach_update now w im newArgs :
    reachable im -> reachable (Update now w im newArgs).1.1.2
| reach_evaluate now w im decoded :
    reachable im -> reachable (Evaluate now w im decoded).1.1.2
| reach_tick now w im :
    reachable im -> reachable (tickPollFile now w im).2.

End Git.

(** Every element differs from the one before it, the first one from
    [prev]. *)
Fixpoint changesFrom (prev : string) (contents : list string) : bool :=
  match contents with
  | [] => true
  | c :: rest => negb (String.eqb prev c) && changesFrom c rest
  end.

End ImportSourceOps.

(** *** Helpers for the import config node *)

Module ImportConfigNodeOps.
Import Go Controller.

(** The statements [processNodeBody] acts on: declare and import blocks. *)
Definition relevant (s : Stmt) : bool :=
  match s with
  | BlockStmtOf b => isDeclare b || isImport b
  | AttributeStmt _ _ => false
  end.

(** The first import block of a file that carries a given label. *)
Definition firstImport (f : File) (l : string) : option BlockStmt :=
  List.find (fun b => negb (isDeclare b) && isImport b && String.eqb (Label b) l)
            (blocksOf f).

(** The braces of a block leave room for [content[LCurly+1 : RCurly-1]]. *)
Definition bracesInBounds (content : string) (b : BlockStmt) : Prop :=
  0 <= LCurlyPos b + 1 /\ LCurlyPos b + 1 <= RCurlyPos b - 1
  /\ RCurlyPos b - 1 <= Z.of_nat (String.length content).

End ImportConfigNodeOps.

(** *** Helpers for the custom component node *)

Module CustomComponentNodeOps.
Import Go Controller CustomComponentNode.

(** The string holds no dot. *)
Fixpoint noDot (s : string) : bool :=
  match s with
  | EmptyString => true
  | String c s' => negb (Ascii.eqb c "."%char) && noDot s'
  end.

Section Node.
Context {Scope Args MC E : Type} `{Modules Scope Args MC E}.
Variable GetCustomComponentConfig
  : node Args MC E -> CustomComponentConfig + error.

(** The states of a custom component node: it was constructed, and then
    its block was updated, it was evaluated, or its exports were set, any
    number of times. *)
Inductive reachable : node Args MC E -> Prop :=
| reach_new now g b : reachable (NewCustomComponentNode now g b)
| reach_block cn b cn' :
    reachable cn -> UpdateBlock cn b = Done cn' -> reachable cn'
| reach_evaluate now cn scope :
    reachable cn -> reachable (Evaluate GetCustomComponentConfig now cn scope).1.1
| reach_exports now cn e :
    reachable cn -> reachable (setExports now cn e).1.

End Node.

End CustomComponentNodeOps.

(** *** More stand-ins for running the operations *)

Module OpsMem.
Import Go Simple SimpleMem Controller ControllerMem.

(** A store without bookmark. *)
Definition newStore : memStore :=
  storeOf [(10%N, Samples [1]); (11%N, Samples [2])] [].

(** A writer at the last key of its store, all delivered. *)
Definition idleWriter : writer memStore scripted :=
  mkWriter "c1" 11%N mimir caughtUpStore c1Name.
Definition idleVars : loopVars := mkLoopVars false true None.

(** A writer whose last submission of key 5 failed and whose entry at key 5
    has since left the store. *)
Definition stuckWriter : writer memStore scripted :=
  mkWriter "c1" 5%N mimir laggingStore c1Name.
Definition failedVars : loopVars := mkLoopVars false false (Some "connection refused").

(** A declare whose braces are adjacent, as in [declare "e" {}]. *)
Definition textEmpty : string := "declare " +:+ quoted "e" +:+ " {}".
Definition blockEmpty : BlockStmt := mkBlockStmt ["declare"] "e" [] 12 13.

(** A module text with a declare, an attribute and a block of another
    kind, and its syntax tree. *)
Definition strayBlock : BlockStmt :=
  mkBlockStmt ["logging"] "" [AttributeStmt "level" "debug"] 30 46.
Definition fileMixed : File :=
  [BlockStmtOf blockA; AttributeStmt "x" "1"; BlockStmtOf strayBlock].

(** A file with two imports under the label [dep]. *)
Definition importDep1 : BlockStmt :=
  mkBlockStmt ["import"; "file"] "dep" [AttributeStmt "filename" "a"] 18 35.
Definition importDep2 : BlockStmt :=
  mkBlockStmt ["import"; "http"] "dep" [AttributeStmt "url" "b"] 54 66.
Definition fileImports : File := [BlockStmtOf importDep1; BlockStmtOf importDep2].

(** The fresh import node at the point where [onContentUpdate] calls
    [processNodeBody]: both maps are made and the update is in progress. *)
Definition updatingImport : ImportConfigNode.node src :=
  ImportConfigNode.setDeclares
    (ImportConfigNode.setInContentUpdate
       (ImportConfigNode.setChildren freshImport mapMake) true)
    mapMake.

(** A child import node labelled [dep] that holds the declare [a]. *)
Definition childDep : ImportConfigNode.node src :=
  ImportConfigNode.setDeclares
    (ImportConfigNode.NewImportConfigNode 0 importDep1 rootGlobals File_)
    (Some {[ "a" := NewDeclare blockA " z = 0" ]}).

End OpsMem.

(** * Properties *)

(** ** Go primitives *)

Module GoFacts.
Import Go.

Lemma wrap64_in_range (z : Z) : in_int64 z -> wrap64 z = z.
Proof.
  unfold in_int64, wrap64. intros Hz.
  rewrite Z.mod_small by lia. lia.
Qed.

Lemma append_cons (c : ascii) (a b : string) : String c a +:+ b = String c (a +:+ b).
Proof. reflexivity. Qed.

Lemma append_empty_l (b : string) : "" +:+ b = b.
Proof. reflexivity. Qed.

Lemma HasPrefix_app (s p : string) :
  HasPrefix s p = true <-> exists r, s = p +:+ r.
Proof.
  revert s. induction p as [|c p IH]; intros s; simpl.
  - split; [intros _; exists s; reflexivity | reflexivity].
  - destruct s as [|d s].
    + split; [discriminate | intros [r Hr]; discriminate].
    + destruct (Ascii.eqb_spec c d) as [->|Hne].
      * rewrite IH. split; intros [r Hr]; exists r.
        -- rewrite append_cons. now f_equal.
        -- rewrite append_cons in Hr. now inversion Hr.
      * split; [discriminate|]. intros [r Hr].
        rewrite append_cons in Hr. inversion Hr. congruence.
Qed.

(** [strings.Contains s substr] holds exactly when [substr] occurs in [s]. *)
Lemma Contains_occurs (s substr : string) :
  Contains s substr = true <-> exists a b, s = a +:+ substr +:+ b.
Proof.
  induction s as [|c s IH]; simpl.
  - rewrite orb_false_r, HasPrefix_app. split.
    + intros [r Hr]. exists "", r. exact Hr.
    + intros [a [b Hab]]. destruct a as [|c a].
      * exists b. exact Hab.
      * rewrite append_cons in Hab. discriminate.
  - rewrite orb_true_iff, HasPrefix_app, IH. split.
    + intros [[r Hr]|[a [b Hab]]].
      * exists "", r. exact Hr.
      * exists (String c a), b. rewrite append_cons. now f_equal.
    + intros [a [b Hab]]. destruct a as [|c' a].
      * left. exists b. exact Hab.
      * right. rewrite append_cons in Hab. inversion Hab; subst. exists a, b. reflexivity.
Qed.

Section GoMap.
Context {K : Type} `{Countable K} {V : Type}.
Implicit Types (m : option (gmap K V)) (g : gmap K V).

Lemma gomap_lookup_Some g (k : K) : Some g !! k = g !! k.
Proof. reflexivity. Qed.

Lemma gomap_lookup_None (k : K) : (None : option (gmap K V)) !! k = None.
Proof. reflexivity. Qed.

(** An assignment goes through exactly on a map that was made. *)
Lemma mapAssign_Done m (k : K) (v : V) m' :
  mapAssign m k v = Done m' <-> exists g, m = Some g /\ m' = Some (<[k := v]> g).
Proof.
  destruct m as [g|]; simpl.
  - split; [intros [= <-]; eauto | intros (g' & [= <-] & ->); reflexivity].
  - split; [discriminate | intros (g' & Hg & _); discriminate].
Qed.

Lemma mapAssign_Panicked m (k : K) (v : V) msg :
  mapAssign m k v = Panicked msg <-> m = None /\ msg = "assignment to entry in nil map".
Proof.
  destruct m as [g|]; simpl.
  - split; [discriminate | intros [Hm _]; discriminate].
  - split; [intros [= <-]; auto | intros [_ ->]; reflexivity].
Qed.

Lemma mapAssign_lookup m (k k' : K) (v : V) m' :
  mapAssign m k v = Done m' ->
  m' !! k' = if decide (k = k') then Some v else m !! k'.
Proof.
  intros (g & -> & ->)%mapAssign_Done. rewrite !gomap_lookup_Some.
  destruct (decide (k = k')) as [->|Hne].
  - apply lookup_insert_eq.
  - apply lookup_insert_ne. exact Hne.
Qed.

Lemma elem_of_mapRange m (k : K) (v : V) : (k, v) ∈ mapRange m <-> m !! k = Some v.
Proof.
  destruct m as [g|]; unfold mapRange; simpl.
  - rewrite elem_of_map_to_list. reflexivity.
  - rewrite map_to_list_empty. split; [intros Hin; inversion Hin | discriminate].
Qed.

Lemma NoDup_fst_mapRange m : NoDup (mapRange m).*1.
Proof. unfold mapRange. apply NoDup_fst_map_to_list. Qed.

End GoMap.

Lemma Contains_self (d : string) : Contains d d = true.
Proof.
  apply Contains_occurs. exists "", "". rewrite append_empty_l.
  induction d as [|c d IH]; [reflexivity|].
  rewrite append_cons. now f_equal.
Qed.

(** [int64(d.Seconds())] is the number of whole seconds for small
    durations; from 2^24 s on, a fraction of 0.999999999 s is rounded up by
    the floating-point sum. *)
Example Seconds_int64_rounding :
  Seconds_int64 (10 * Second) = 10
  /\ Seconds_int64 (10 * Second + 999999999) = 10
  /\ Seconds_int64 (- (10 * Second + 999999999)) = - 10
  /\ Seconds_int64 ((2 ^ 24 - 1) * Second + 999999999) = 2 ^ 24 - 1
  /\ Seconds_int64 (2 ^ 24 * Second + 999999999) = 2 ^ 24 + 1.
Proof. vm_compute. auto. Qed.

(** [Clean] and [Join] on the cases of the documentation of [path]. *)
Example Clean_cases :
  Clean "" = "." /\ Clean "abc//def//ghi" = "abc/def/ghi"
  /\ Clean "abc/./def" = "abc/def" /\ Clean "abc/def/../../.." = ".."
  /\ Clean "/abc/def/../../.." = "/" /\ Clean "abc/../../././../def" = "../../def"
  /\ Clean "/../abc" = "/abc" /\ Clean "abc/" = "abc" /\ Clean "/" = "/".
Proof. vm_compute. auto 10. Qed.

Example filepath_Join_cases :
  Component.filepath_Join "/data" "repo" = "/data/repo"
  /\ Component.filepath_Join "/data/" "repo" = "/data/repo"
  /\ Component.filepath_Join "/data/x/.." "repo" = "/data/repo"
  /\ Component.filepath_Join "" "repo" = "repo"
  /\ Component.filepath_Join "" "" = "".
Proof. vm_compute. auto 10. Qed.

End GoFacts.

(** ** The appender *)

Module LinearFacts.
Import Go Linear.

Section Appender.
Variable sizeOf : Sample -> Z.
Context {D : Type} `{QueueStore D}.
Implicit Types (c : Queue D) (a : appender).

(** [Append] always returns the reference it was given and a nil error. *)
Lemma Append_returns_ref now c a ref lbls t v :
  (Append sizeOf now c a ref lbls t v).2 = (ref, None).
Proof.
  unfold Append.
  destruct (t <? _); [reflexivity|].
  destruct (_ >? _); reflexivity.
Qed.

(** A sample older than the threshold the code computes,
    [UnixMilli(now) - int64(ttl.Seconds())], is dropped: neither the batch
    nor the queue changes. *)
Lemma Append_below_threshold now c a ref lbls t v :
  t < wrap64 (now - Seconds_int64 (ttl a)) ->
  Append sizeOf now c a ref lbls t v = (c, a, (ref, None)).
Proof.
  intros Hlt. unfold Append.
  destruct (Z.ltb_spec t (wrap64 (now - Seconds_int64 (ttl a)))); [reflexivity | lia].
Qed.

(** A sample at or above that threshold is taken in: it is in the batch,
    or in the payload handed to [AddCommited] when the batch was flushed. *)
Lemma Append_above_threshold now c a ref lbls t v :
  0 <= totalMetrics (l a) ->
  wrap64 (now - Seconds_int64 (ttl a)) <= t ->
  let '(c', a', _) := Append sizeOf now c a ref lbls t v in
  mkSample lbls t v ∈ taken c' a' /\ ttl a' = ttl a.
Proof.
  intros Hn Hge. unfold Append.
  destruct (Z.ltb_spec t (wrap64 (now - Seconds_int64 (ttl a)))); [lia|].
  simpl. destruct (_ >? _).
  - unfold commit, taken, handed. simpl.
    destruct (Z.eqb_spec (totalMetrics (l a) + 1) 0); [lia|].
    destruct (AddCommited (database c) _) as [d [key err]].
    simpl. split; [|reflexivity].
    rewrite fmap_app, concat_app. simpl. rewrite !elem_of_app.
    left. right. left. right. apply list_elem_of_singleton. reflexivity.
  - unfold taken. simpl. split; [|reflexivity].
    rewrite !elem_of_app. right. right. apply list_elem_of_singleton. reflexivity.
Qed.

(** The samples the code drops although they are within the TTL: those
    between [now - ttl] in milliseconds and the threshold the code
    computes. *)
Lemma Append_drops_in_window now c a ref lbls t v :
  in_int64 (now - Seconds_int64 (ttl a)) ->
  now - Milliseconds (ttl a) <= t < now - Seconds_int64 (ttl a) ->
  Append sizeOf now c a ref lbls t v = (c, a, (ref, None)).
Proof.
  intros Hr [_ Hlt]. apply Append_below_threshold.
  rewrite GoFacts.wrap64_in_range by exact Hr. exact Hlt.
Qed.

End Appender.

Import LinearMem.

(** C1, evaluated on the code: an appender with a TTL of 10 s receives,
    at wall-clock time 1 700 000 000 000 ms, a sample stamped 5 s earlier.
    The sample is not older than [now - ttl], which lies 10 000 ms back; yet
    [Append] computes the threshold [now - 10] (milliseconds minus seconds),
    finds the sample below it and drops it: batch and queue are
    unchanged. *)
Theorem Append_drops_sample_within_ttl :
  let a := newAppender (10 * Second) in
  let now := 1700000000000 in
  let ts := now - 5000 in
  now - Milliseconds (ttl a) <= ts /\
  wrap64 (now - Seconds_int64 (ttl a)) = now - 10 /\
  Append (fun _ => 16) now emptyQueue a 7 up ts 0 = (emptyQueue, a, (7, None)).
Proof.
  cbv zeta. split; [|split].
  - vm_compute. discriminate.
  - reflexivity.
  - reflexivity.
Qed.

(** The same sample is buffered as soon as it is at most
    [int64(ttl.Seconds())] milliseconds old, here 10 ms. *)
Example Append_keeps_sample_ten_ms_old :
  let a := newAppender (10 * Second) in
  let now := 1700000000000 in
  (Append (fun _ => 16) now emptyQueue a 7 up (now - 10) 0).1.2
  = mkAppender (10 * Second) (mkLinear [mkSample up (now - 10) 0] 16 1) 0.
Proof. reflexivity. Qed.

End LinearFacts.

(** ** The writer *)

Module SimpleFacts.
Import Go Simple.

Section Writer.
Context {S Q : Type} `{DbStore S} `{QueueManager Q}.

Lemma incrementKey_key (w : writer S Q) :
  currentKey (incrementKey w).1 = GetNextKey (store w) (currentKey w)
  /\ store (incrementKey w).1 = store w
  /\ to (incrementKey w).1 = to w
  /\ bookmarkKey (incrementKey w).1 = bookmarkKey w.
Proof. unfold incrementKey. simpl. auto. Qed.

(** C2, as amended: the writer starts at the bookmark's key when a
    bookmark exists for its name, whatever the oldest persisted key is, and
    at the oldest persisted key when none exists; a key of 0 is replaced
    by 1.  The start is [max(bookmark, oldest)] whenever the bookmark is
    not below the oldest key and is not 0. *)
Theorem newWriter_start_key (parent : string) (q : Q) (s : S) :
  let name := "metrics_write_to_" +:+ Name q +:+ "_parent_" +:+ parent in
  let k := match GetBookmark s name with
           | Some v => Key v
           | None => GetOldestKey s
           end in
  bookmarkKey (newWriter parent q s) = name
  /\ currentKey (newWriter parent q s) = (if (k =? 0)%N then 1%N else k)
  /\ (forall v, GetBookmark s name = Some v ->
        (GetOldestKey s <= Key v)%N -> Key v <> 0%N ->
        currentKey (newWriter parent q s) = specStartKey (GetBookmark s name) (GetOldestKey s)).
Proof.
  cbv zeta. unfold newWriter. simpl.
  split; [|split].
  - destruct (GetBookmark s _); simpl; destruct (_ =? 0)%N; reflexivity.
  - destruct (GetBookmark s _); simpl; destruct (_ =? 0)%N; reflexivity.
  - intros v Hv Hle Hnz. rewrite Hv. simpl.
    destruct (N.eqb_spec (Key v) 0); [contradiction|].
    simpl. symmetry. apply N.max_l. exact Hle.
Qed.

(** C3: in a pass of the loop that finds an entry at the current key, a
    submission that succeeds or fails unrecoverably has the bookmark written
    with the current key and the writer moved to the next key; after a
    recoverable failure the store and the key are unchanged, the pass waits
    one second, and the next pass looks up the same key again. *)
Theorem iteration_entry_found (w : writer S Q) (lv : loopVars) (val : Signal) :
  newKey lv || negb (success lv) = true ->
  GetSignal (store w) (currentKey w) = Some val ->
  let '(q, ok, e) := submit (to w) val (success lv) (err lv) in
  let '(w', lv', timeOut) := iteration w lv in
  to w' = q /\
  if ok || negb (recoverable e) then
    store w' = (WriteBookmark (store w) (bookmarkKey w) (mkBookmark (currentKey w))).1
    /\ currentKey w' = GetNextKey (store w') (currentKey w)
  else
    store w' = store w
    /\ currentKey w' = currentKey w
    /\ timeOut = 1 * Second
    /\ lookedUp w' lv' = Some (currentKey w).
Proof.
  intros Hin Hfound.
  unfold iteration. rewrite Hin, Hfound.
  destruct (submit (to w) val (success lv) (err lv)) as [[q ok] e].
  simpl.
  destruct (ok || negb (recoverable e)) eqn:Hadv.
  - destruct (WriteBookmark (store w) (bookmarkKey w) {| Key := currentKey w |})
      as [s' e'] eqn:Hwb.
    simpl. rewrite Hadv. simpl. auto.
  - rewrite Hadv. simpl.
    apply orb_false_iff in Hadv as [-> _]. simpl.
    unfold lookedUp. simpl. rewrite orb_true_r. auto.
Qed.


End Writer.

Import SimpleMem.

(** Counterexample to C2 as stated: with the bookmark at key 3 and the
    oldest persisted key at 10, the writer starts at 3, not at
    [max(3, 10) = 10]. *)
Lemma newWriter_below_oldest_key :
  GetBookmark laggingStore c1Name = Some (mkBookmark 3)
  /\ GetOldestKey laggingStore = 10%N
  /\ currentKey (newWriter "c1" mimir laggingStore) = 3%N
  /\ currentKey (newWriter "c1" mimir laggingStore)
     <> specStartKey (GetBookmark laggingStore c1Name) (GetOldestKey laggingStore).
Proof.
  repeat split; try (vm_compute; reflexivity).
  vm_compute. discriminate.
Qed.

(** With the bookmark at key 11, not below the oldest key 10, the writer
    starts at [max(11, 10)]; with no bookmark it starts at the oldest key. *)
Example newWriter_at_bookmark :
  currentKey (newWriter "c1" mimir caughtUpStore) = 11%N
  /\ currentKey (newWriter "c1" mimir caughtUpStore)
     = specStartKey (GetBookmark caughtUpStore c1Name) (GetOldestKey caughtUpStore)
  /\ currentKey (newWriter "c2" mimir caughtUpStore) = 10%N.
Proof. vm_compute. auto. Qed.

(** A pass over the entry at key 10 whose submission fails with a
    connection error: nothing is written, the key stays at 10, the pass
    waits one second and the entry is looked up again. *)
Lemma iteration_entry_found_witness :
  let w := writerAt10 (false, Some "connection refused") in
  newKey freshKey || negb (success freshKey) = true
  /\ GetSignal (store w) (currentKey w) = Some (Samples [1])
  /\ (let '(w', lv', timeOut) := iteration w freshKey in
      to w' = mkScripted "mimir" [] [[1]]
      /\ store w' = store w
      /\ currentKey w' = 10%N
      /\ timeOut = 1 * Second
      /\ lookedUp w' lv' = Some 10%N).
Proof.
  cbv zeta. split; [reflexivity|]. split; [reflexivity|].
  exact (iteration_entry_found (writerAt10 (false, Some "connection refused"))
           freshKey (Samples [1]) eq_refl eq_refl).
Defined.



(** The three outcomes on the entry at key 10.  Accepted: the bookmark is
    written with key 10 and the writer moves to key 11. *)
Example iteration_accepted :
  let '(w', lv', timeOut) := iteration (writerAt10 (true, None)) freshKey in
  bookmarks (store w') !! c1Name = Some (mkBookmark 10)
  /\ currentKey w' = 11%N /\ timeOut = 10 * Millisecond.
Proof. vm_compute. auto. Qed.

(** Rejected by the remote with its message for an out-of-order sample,
    which contains the descriptor: the entry is given up, the bookmark is
    written with key 10 and the writer moves to key 11. *)
Example iteration_rejected :
  let e := "the sample has been rejected because another sample with a more recent timestamp has already been ingested and out-of-order samples are not allowed" in
  let '(w', lv', timeOut) := iteration (writerAt10 (false, Some e)) freshKey in
  recoverable (Some e) = false
  /\ bookmarks (store w') !! c1Name = Some (mkBookmark 10)
  /\ currentKey w' = 11%N /\ timeOut = 1 * Second.
Proof. vm_compute. auto. Qed.

(** The classification looks for the descriptor and nothing else: a
    message without it, such as the one below, is recoverable and the entry
    is retried. *)
Example iteration_out_of_order_retried :
  let e := "out of order sample" in
  let '(w', lv', timeOut) := iteration (writerAt10 (false, Some e)) freshKey in
  recoverable (Some e) = true
  /\ bookmarks (store w') !! c1Name = Some (mkBookmark 3)
  /\ currentKey w' = 10%N /\ timeOut = 1 * Second.
Proof. vm_compute. auto. Qed.

End SimpleFacts.

(** ** The git import source *)

Module ImportSourceFacts.
Import Go ImportSource.

Section Git.
Context {W R : Type} `{Vcs W R}.

(** [Update] never touches the managed options, so the storage path it
    computes is the same on every call. *)
Lemma Update_keeps_opts now (w : W) (im : ImportGit R) newArgs :
  opts (Update now w im newArgs).1.1.2 = opts im.
Proof.
  unfold Update.
  destruct (isNil (repo im) || negb (bool_decide (optionsOf newArgs = repoOpts im))).
  - destruct (NewGitRepo w _ _) as [w1 [r [e|]]].
    + destruct (isUpdateFailed e).
      * destruct (pollFile w1 _ newArgs) as [[w2 im2] [e2|]] eqn:Hp;
          unfold pollFile in Hp;
          destruct (RepoUpdate w1 _) as [w3 [e3|]];
          try destruct (RepoReadFile w3 _ _) as [c [e4|]];
          try destruct (negb _);
          inversion Hp; subst; try destruct (isUpdateFailed e2); reflexivity.
      * reflexivity.
    + destruct (pollFile w1 _ newArgs) as [[w2 im2] [e2|]] eqn:Hp;
        unfold pollFile in Hp;
        destruct (RepoUpdate w1 _) as [w3 [e3|]];
        try destruct (RepoReadFile w3 _ _) as [c [e4|]];
        try destruct (negb _);
        inversion Hp; subst; try destruct (isUpdateFailed e2); reflexivity.
  - destruct (pollFile w im newArgs) as [[w2 im2] [e2|]] eqn:Hp;
      unfold pollFile in Hp;
      destruct (RepoUpdate w _) as [w3 [e3|]];
      try destruct (RepoReadFile w3 _ _) as [c [e4|]];
      try destruct (negb _);
      inversion Hp; subst; try destruct (isUpdateFailed e2); reflexivity.
Qed.

(** With an open repository and unchanged repository options [Update]
    does not call [vcs.NewGitRepo]. *)
Lemma Update_same_options now (w : W) (im : ImportGit R) newArgs :
  isNil (repo im) = false ->
  optionsOf newArgs = repoOpts im ->
  (Update now w im newArgs).2 = [].
Proof.
  intros Hrepo Heq. unfold Update.
  rewrite Hrepo, bool_decide_eq_true_2 by exact Heq. simpl.
  destruct (pollFile w im newArgs) as [[w2 im2] [e2|]];
    try destruct (isUpdateFailed e2); reflexivity.
Qed.

(** When the repository options differ, [Update] calls [vcs.NewGitRepo]
    exactly once, with the new options and the path [<DataPath>/repo]. *)
Lemma Update_calls_NewGitRepo now (w : W) (im : ImportGit R) newArgs :
  optionsOf newArgs <> repoOpts im ->
  (Update now w im newArgs).2
  = [(filepath_Join (DataPath (opts im)) "repo", optionsOf newArgs)].
Proof.
  intros Hne. unfold Update.
  rewrite bool_decide_eq_false_2 by exact Hne. rewrite orb_true_r.
  destruct (NewGitRepo w _ _) as [w1 [r [e|]]].
  - destruct (isUpdateFailed e); [|reflexivity].
    destruct (pollFile w1 _ newArgs) as [[w2 im2] [e2|]];
      try destruct (isUpdateFailed e2); reflexivity.
  - destruct (pollFile w1 _ newArgs) as [[w2 im2] [e2|]];
      try destruct (isUpdateFailed e2); reflexivity.
Qed.

(** C7, as amended: when the repository, the revision or the
    authentication of the new arguments differ from the stored repository
    options, [Update] calls [vcs.NewGitRepo] once, with the new options, at
    the storage path [<DataPath>/repo]; that path does not depend on the
    options, and the managed options it is computed from stay as they
    are. *)
Theorem Update_reopens_at_fixed_path now (w : W) (im : ImportGit R) newArgs :
  optionsOf newArgs <> repoOpts im ->
  let res := Update now w im newArgs in
  res.2 = [(filepath_Join (DataPath (opts im)) "repo", optionsOf newArgs)]
  /\ cloneDir res = Some (filepath_Join (DataPath (opts im)) "repo")
  /\ opts res.1.1.2 = opts im.
Proof.
  intros Hne. cbv zeta.
  pose proof (Update_calls_NewGitRepo now w im newArgs Hne) as Hcalls.
  split; [exact Hcalls|]. split.
  - unfold cloneDir. rewrite Hcalls. reflexivity.
  - apply Update_keeps_opts.
Qed.

End Git.

Import GitMem.

(** Counterexample to C7 as stated: the source is updated to repository
    [a.git] and then to repository [b.git].  The second update finds different repository
    options and calls [vcs.NewGitRepo] again, in the directory the first
    one used. *)
Lemma Update_reuses_directory :
  let first := Update 1 emptyWorld modSource argsA in
  let second := Update 2 afterA.1 afterA.2 argsB in
  optionsOf argsB <> repoOpts afterA.2
  /\ cloneDir first = Some "/data/import.git.mod/repo"
  /\ cloneDir second = Some "/data/import.git.mod/repo"
  /\ cloneDir second = cloneDir first.
Proof.
  cbv zeta. split; [vm_compute; discriminate|].
  repeat split; vm_compute; reflexivity.
Qed.

(** The update from repository [a.git] to [b.git]. *)
Lemma Update_reopens_at_fixed_path_witness :
  optionsOf argsB <> repoOpts afterA.2
  /\ (Update 2 afterA.1 afterA.2 argsB).2
     = [("/data/import.git.mod/repo", optionsOf argsB)].
Proof.
  assert (optionsOf argsB <> repoOpts afterA.2) as Hne by (vm_compute; discriminate).
  split; [exact Hne|].
  exact (proj1 (Update_reopens_at_fixed_path 2 afterA.1 afterA.2 argsB Hne)).
Defined.

End ImportSourceFacts.

(** ** Import config nodes *)

Module ImportConfigNodeFacts.
Import Go Controller ImportConfigNode.

Section Node.
Context {Src Scope : Type} `{Imports Src Scope}.
Variable childEvaluate : node Src -> Scope -> outcome (node Src * bool * option error).

Lemma slice_bodyText (content : string) (b : BlockStmt) (body : string) :
  slice content (LCurlyPos b + 1) (RCurlyPos b - 1) = Done body ->
  body = bodyText content b.
Proof.
  unfold slice, bodyText.
  destruct (_ && _); [|discriminate]. intros [= <-]. reflexivity.
Qed.

(** What [processDeclareBlock] does to the declares: a label that is
    present keeps its declare, a new label gets the block. *)
Lemma processDeclareBlock_lookup (cn cn' : node Src) (stmt : BlockStmt) content l :
  processDeclareBlock cn stmt content = Done cn' ->
  importedDeclares cn' !! l =
    match importedDeclares cn !! l with
    | Some d => Some d
    | None => if String.eqb (Label stmt) l
              then Some (NewDeclare stmt (bodyText content stmt)) else None
    end
  /\ importConfigNodesChildren cn' = importConfigNodesChildren cn
  /\ source cn' = source cn.
Proof.
  unfold processDeclareBlock.
  destruct (importedDeclares cn !! Label stmt) as [d|] eqn:Hl.
  - intros [= <-]. split; [|auto].
    destruct (importedDeclares cn !! l) eqn:Hl'; [reflexivity|].
    destruct (String.eqb_spec (Label stmt) l); [congruence | reflexivity].
  - destruct (slice content _ _) as [body|msg] eqn:Hs; [|discriminate].
    simpl.
    destruct (mapAssign (importedDeclares cn) _ _) as [m|msg] eqn:Hm; [|discriminate].
    intros [= <-]. simpl. split; [|auto].
    apply slice_bodyText in Hs. subst body.
    rewrite (GoFacts.mapAssign_lookup _ _ l _ _ Hm).
    destruct (String.eqb_spec (Label stmt) l) as [Heq|Hne].
    + subst l. rewrite decide_True by reflexivity. rewrite Hl. reflexivity.
    + rewrite decide_False by exact Hne.
      destruct (importedDeclares cn !! l); reflexivity.
Qed.

Lemma processImportBlock_declares now (cn cn' : node Src) stmt fullName :
  processImportBlock now cn stmt fullName = Done cn' ->
  importedDeclares cn' = importedDeclares cn /\ source cn' = source cn.
Proof.
  unfold processImportBlock.
  destruct (importConfigNodesChildren cn !! Label stmt); [intros [= <-]; auto|].
  simpl. destruct (mapAssign _ _ _) as [m|msg]; [|discriminate].
  intros [= <-]. auto.
Qed.

(** What [processNodeBody] does to the declares: labels that are present
    keep their declare; every other label gets the first declare block of
    the file that carries it. *)
Lemma processNodeBody_lookup now content (f : File) :
  forall (cn cn' : node Src) l,
  processNodeBody now cn f content = Done cn' ->
  importedDeclares cn' !! l =
    match importedDeclares cn !! l with
    | Some d => Some d
    | None => (fun b => NewDeclare b (bodyText content b)) <$> firstDeclare f l
    end
  /\ source cn' = source cn.
Proof.
  induction f as [|stmt rest IH]; intros cn cn' l.
  - simpl. intros [= <-]. destruct (importedDeclares cn !! l); auto.
  - destruct stmt as [name value|stmt]; simpl.
    + intros Hp. apply (IH _ _ l) in Hp. exact Hp.
    + unfold firstDeclare. simpl. unfold isDeclare at 1.
      destruct (String.eqb (Join (Name stmt) ".") "declare") eqn:Hd; simpl.
      * destruct (processDeclareBlock cn stmt content) as [cn1|msg] eqn:Hb;
          [|discriminate].
        simpl. intros Hp. apply (IH _ _ l) in Hp as [Hp Hsrc].
        apply (processDeclareBlock_lookup _ _ _ _ l) in Hb as (Hb & _ & Hsrc1).
        split; [|congruence].
        rewrite Hp, Hb.
        destruct (importedDeclares cn !! l); [reflexivity|].
        destruct (String.eqb (Label stmt) l); reflexivity.
      * destruct (_ || _); simpl.
        -- destruct (processImportBlock now cn stmt _) as [cn1|msg] eqn:Hb;
             [|discriminate].
           simpl. intros Hp. apply (IH _ _ l) in Hp as [Hp Hsrc].
           apply processImportBlock_declares in Hb as [Hd' Hs'].
           rewrite Hd' in Hp. split; [exact Hp | congruence].
        -- intros Hp. apply (IH _ _ l) in Hp. exact Hp.
Qed.

(** Without import blocks in the file no child is added. *)
Lemma processNodeBody_children now content (f : File) :
  forall (cn cn' : node Src),
  filter isImport (blocksOf f) = [] ->
  processNodeBody now cn f content = Done cn' ->
  importConfigNodesChildren cn' = importConfigNodesChildren cn
  /\ importChildrenRunning cn' = importChildrenRunning cn
  /\ nodeID cn' = nodeID cn.
Proof.
  induction f as [|stmt rest IH]; intros cn cn' Hno.
  - simpl. intros [= <-]. auto.
  - destruct stmt as [name value|stmt]; simpl in *.
    + apply IH. exact Hno.
    + rewrite filter_cons in Hno.
      destruct (decide (isImport stmt)) as [Hi|Hi]; [discriminate|].
      apply Is_true_false in Hi. unfold isImport in Hi. cbv zeta in Hi.
      destruct (String.eqb (Join (Name stmt) ".") "declare") eqn:Hd; simpl.
      * destruct (processDeclareBlock cn stmt content) as [cn1|msg] eqn:Hb;
          [|discriminate].
        simpl. intros Hp. apply IH in Hp; [|exact Hno].
        unfold processDeclareBlock in Hb.
        destruct (importedDeclares cn !! Label stmt).
        -- injection Hb as <-. exact Hp.
        -- destruct (slice content _ _); [|discriminate]. simpl in Hb.
           destruct (mapAssign _ _ _); [|discriminate].
           injection Hb as <-. exact Hp.
      * rewrite Hi. simpl. apply IH. exact Hno.
Qed.

(** The source of a node is set when the node is constructed and is never
    nil afterwards: [onContentUpdate] and [Evaluate] keep it. *)
Lemma NewImportConfigNode_source now block g t :
  is_Some (source (NewImportConfigNode now block g t)).
Proof. unfold NewImportConfigNode. simpl. eauto. Qed.

Lemma OnChildrenContentUpdate_source (cn child cn' : node Src) evs :
  OnChildrenContentUpdate cn child = Done (cn', evs) -> source cn' = source cn.
Proof.
  unfold OnChildrenContentUpdate.
  destruct (surface _ _ _) as [m|msg]; [|discriminate].
  intros [= <- _]. reflexivity.
Qed.

Lemma evaluateChildrenIn_source (children : list (string * node Src)) :
  forall (cn cn' : node Src) evs err,
  evaluateChildrenIn childEvaluate cn children = Done (cn', evs, err) ->
  source cn' = source cn.
Proof.
  induction children as [|[k child] rest IH]; intros cn cn' evs err.
  - intros [= <- _ _]. reflexivity.
  - simpl.
    destruct (childEvaluate child emptyScope) as [[[child' called] cerr]|cmsg];
      [|discriminate].
    destruct called; simpl.
    + destruct (OnChildrenContentUpdate _ child') as [[cn1 evs1]|msg] eqn:Hc;
        [|discriminate].
      apply OnChildrenContentUpdate_source in Hc. simpl in Hc. simpl.
      destruct cerr as [e|]; [intros [= <- _ _]; exact Hc|].
      destruct (evaluateChildrenIn childEvaluate cn1 rest) as [[[cn2 evs2] err2]|msg] eqn:Hr;
        [|discriminate].
      apply IH in Hr. simpl. intros [= <- _ _]. congruence.
    + destruct cerr as [e|]; [intros [= <- _ _]; reflexivity|].
      match goal with |- context [evaluateChildrenIn _ ?c rest] =>
        destruct (evaluateChildrenIn childEvaluate c rest) as [[[cn2 evs2] err2]|msg] eqn:Hr;
          [|discriminate]
      end.
      apply IH in Hr. simpl. intros [= <- _ _]. exact Hr.
Qed.

Lemma onContentUpdate_source now (cn cn' : node Src) content evs :
  onContentUpdate childEvaluate now cn content = Done (cn', evs) ->
  source cn' = source cn.
Proof.
  unfold onContentUpdate.
  destruct (ParseFile _ content) as [file|e].
  - destruct (processNodeBody now _ file content) as [cn1|msg] eqn:Hbody; [|discriminate].
    simpl. apply (processNodeBody_lookup _ _ _ _ _ "") in Hbody as [_ Hsrc].
    simpl in Hsrc. unfold evaluateChildren.
    destruct (evaluateChildrenIn childEvaluate cn1 _) as [[[cn2 evs2] err2]|msg] eqn:Hch;
      [|discriminate].
    apply evaluateChildrenIn_source in Hch. simpl.
    destruct err2; intros [= <- <-]; simpl; congruence.
  - intros [= <- <-]. reflexivity.
Qed.

Lemma Evaluate_source now (cn cn' : node Src) scope evs err :
  Evaluate childEvaluate now cn scope = Done (cn', evs, err) ->
  is_Some (source cn').
Proof.
  unfold Evaluate, evaluate.
  destruct (source cn) as [src|]; [|discriminate].
  destruct (SourceEvaluate src scope) as [[src' content] serr].
  destruct content as [c|]; simpl.
  - destruct (onContentUpdate childEvaluate now _ c) as [[cn1 evs1]|msg] eqn:Hu;
      [|discriminate].
    apply onContentUpdate_source in Hu. simpl in Hu. simpl.
    destruct serr; intros [= <- <- <-]; simpl; rewrite Hu; eauto.
  - destruct serr; intros [= <- <- <-]; simpl; eauto.
Qed.

(** In every state a node can reach the guard of [Run] does not fire. *)
Lemma Run_reachable (cn : node Src) :
  reachable childEvaluate cn ->
  is_Some (source cn) /\ forall now, Run now cn <> Returned ErrUnevaluated.
Proof.
  intros Hr.
  assert (is_Some (source cn)) as Hs.
  { induction Hr as [now block g t|now cn content cn' evs _ IH Hu
                    |now cn scope cn' evs err _ IH He|cn child cn' evs _ IH Hc].
    - apply NewImportConfigNode_source.
    - apply onContentUpdate_source in Hu. rewrite Hu. exact IH.
    - eapply Evaluate_source. exact He.
    - apply OnChildrenContentUpdate_source in Hc. rewrite Hc. exact IH. }
  split; [exact Hs|].
  intros now. unfold Run. destruct Hs as [src ->]. discriminate.
Qed.

(** C8, as amended: when the new content parses, the declares the node
    had imported before play no part in the outcome of the update; when
    moreover the content holds no nested import, the declares of the node
    after the update are those of the new content alone: under each label
    stands the first declare block of the new content with that label, a
    later block with the same label is skipped, and the controller is told
    that the node changed. *)
Theorem onContentUpdate_rebuilds_declares now (cn : node Src) content file :
  ParseFile (label cn) content = inl file ->
  (forall m, onContentUpdate childEvaluate now (setDeclares cn m) content
             = onContentUpdate childEvaluate now cn content)
  /\ (filter isImport (blocksOf file) = [] ->
      forall cn' evs,
      onContentUpdate childEvaluate now cn content = Done (cn', evs) ->
      (forall l, importedDeclares cn' !! l
                 = (fun b => NewDeclare b (bodyText content b)) <$> firstDeclare file l)
      /\ In (NodeUpdated (nodeID cn)) evs).
Proof.
  intros Hparse. split.
  - intros m. destruct cn. reflexivity.
  - intros Hno cn' evs. unfold onContentUpdate. simpl. rewrite Hparse.
    destruct (processNodeBody now _ file content) as [cn1|msg] eqn:Hbody; [|discriminate].
    simpl.
    pose proof (processNodeBody_children _ _ _ _ _ Hno Hbody) as (Hch & Hrun & Hid).
    simpl in Hch, Hrun, Hid.
    unfold evaluateChildren. rewrite Hch. unfold mapRange, mapMake. simpl default.
    rewrite map_to_list_empty. simpl.
    intros [= <- <-]. simpl. split.
    + intros l. apply (processNodeBody_lookup _ _ _ _ _ l) in Hbody as [Hbody _].
      simpl in Hbody. unfold mapMake in Hbody.
      rewrite GoFacts.gomap_lookup_Some, lookup_empty in Hbody. exact Hbody.
    + rewrite Hid. apply in_or_app. right. left. reflexivity.
Qed.

(** The guard of [Run] never fires on a node that was only constructed. *)
Lemma Run_constructed_node now now' block g t :
  exists cn b, Run now' (NewImportConfigNode now block g t) = Running (Src := Src) cn b.
Proof. unfold Run, NewImportConfigNode. simpl. eauto. Qed.

(** C9: an import config node has no exports, in whatever state it is. *)
Theorem ImportConfigNode_Exports_nil (E : Type) (cn : node Src) :
  Exports (E := E) cn = None.
Proof. reflexivity. Qed.

End Node.

Import ControllerMem.

(** The braces of the blocks stand where the syntax trees say. *)
Example brace_offsets :
  String.get 12 textDup = Some "{"%char /\ String.get 20 textDup = Some "}"%char
  /\ String.get 34 textDup = Some "{"%char /\ String.get 42 textDup = Some "}"%char
  /\ String.get 12 textA = Some "{"%char /\ String.get 20 textA = Some "}"%char.
Proof. vm_compute. repeat split. Qed.

(** Counterexample to C8 as stated: the node holds the declare [a]; the
    content that arrives declares the label [b] twice.  The update goes through: afterwards the
    node holds the first of the two [b] blocks and no longer holds [a]. *)
Lemma onContentUpdate_drops_previous_declares :
  ParseFile (label importWithA) textDup = inl fileDup
  /\ Label blockB1 = Label blockB2
  /\ importedDeclares importWithA !! "a" = Some (NewDeclare blockA " z = 0")
  /\ exists cn evs,
       onContentUpdate noChild 2 importWithA textDup = Done (cn, evs)
       /\ importedDeclares cn !! "a" = None
       /\ importedDeclares cn !! "b" = Some (NewDeclare blockB1 " x = 1")
       /\ importedDeclares cn <> importedDeclares importWithA.
Proof.
  split; [reflexivity|]. split; [reflexivity|]. split; [vm_compute; reflexivity|].
  destruct (onContentUpdate noChild 2 importWithA textDup) as [[cn evs]|msg] eqn:Hu;
    [|vm_compute in Hu; discriminate].
  exists cn, evs. split; [reflexivity|].
  assert (importedDeclares cn !! "a" = None) as Ha.
  { vm_compute in Hu. injection Hu as <- _. vm_compute. reflexivity. }
  split; [exact Ha|]. split.
  - vm_compute in Hu. injection Hu as <- _. vm_compute. reflexivity.
  - intros Heq. rewrite Heq in Ha. vm_compute in Ha. discriminate.
Qed.

(** The update of the node holding [a] with the content that declares [b]
    twice: the first [b] block is imported and [a] is gone. *)
Lemma onContentUpdate_rebuilds_declares_witness :
  ParseFile (label importWithA) textDup = inl fileDup
  /\ filter isImport (blocksOf fileDup) = []
  /\ exists cn evs,
       onContentUpdate noChild 2 importWithA textDup = Done (cn, evs)
       /\ importedDeclares cn !! "b" = Some (NewDeclare blockB1 " x = 1")
       /\ importedDeclares cn !! "a" = None.
Proof.
  split; [reflexivity|]. split; [reflexivity|].
  destruct (onContentUpdate noChild 2 importWithA textDup) as [[cn evs]|msg] eqn:Hu;
    [|vm_compute in Hu; discriminate].
  exists cn, evs. split; [reflexivity|].
  pose proof (proj2 (onContentUpdate_rebuilds_declares noChild 2 importWithA textDup fileDup
                       eq_refl) eq_refl cn evs Hu) as [Hl _].
  split.
  - rewrite (Hl "b"). reflexivity.
  - rewrite (Hl "a"). reflexivity.
Defined.

(** A text that does not parse leaves the node without any declare. *)
Example onContentUpdate_parse_error :
  ParseFile (label importWithA) textBroken = inr "syntax error"
  /\ exists cn,
       onContentUpdate noChild 2 importWithA textBroken = Done (cn, [])
       /\ importedDeclares cn = Some ∅.
Proof.
  split; [reflexivity|].
  eexists. split; [vm_compute; reflexivity|]. reflexivity.
Qed.

End ImportConfigNodeFacts.

(** ** Custom component nodes *)

Module CustomComponentNodeFacts.
Import Go Controller CustomComponentNode.

(** [Equals] is equality of component IDs. *)
Lemma Equals_eq (id other : ComponentID) : Equals id other = true <-> id = other.
Proof.
  revert other. induction id as [|x id IH]; intros [|y other]; simpl;
    try (split; [discriminate | congruence]); [tauto|].
  rewrite andb_true_iff, IH.
  destruct (String.eqb_spec x y) as [->|Hne].
  - split; [intros [_ ->]; reflexivity | intros [= ->]; auto].
  - split; [intros [? _]; discriminate | intros [= ? ?]; contradiction].
Qed.

Section Node.
Context {Scope Args MC E : Type} `{Modules Scope Args MC E}.
Variable GetCustomComponentConfig
  : node Args MC E -> CustomComponentConfig + error.

(** C6: setting exports that are deep-equal to the stored ones changes
    nothing in the node and tells the controller nothing; setting exports
    that are not deep-equal stores them, stamps the update time and tells
    the controller once that this node changed. *)
Theorem setExports_gate now (cn : node Args MC E) (e : option E) :
  (DeepEqual (exports cn) e = true ->
     setExports now cn e = (cn, []))
  /\ (DeepEqual (exports cn) e = false ->
     let '(cn', evs) := setExports now cn e in
     exports cn' = e
     /\ lastUpdateTime cn' = now
     /\ evs = [NodeUpdated (nodeID cn)]
     /\ cn' = setLastUpdateTime (storeExports cn e) now).
Proof.
  unfold setExports. split; intros ->; simpl; auto.
Qed.

(** C10: [UpdateBlock] panics exactly when the component ID of the block
    differs from the node's; when the two are equal it returns the node with
    the block and the evaluator replaced and every other field as it
    was. *)
Theorem UpdateBlock_panics_iff_id_differs (cn : node Args MC E) (b : BlockStmt) :
  ((exists msg, UpdateBlock cn b = Panicked msg) <-> BlockComponentID b <> id cn)
  /\ (BlockComponentID b = id cn ->
      exists cn',
        UpdateBlock cn b = Done cn'
        /\ block cn' = b /\ eval cn' = vmNew (Body b)
        /\ cn' = mkNode (id cn) (globalID cn) (label cn) (componentName cn)
                        (importLabel cn) (declareLabel cn) (nodeID cn)
                        (managedOpts cn) (lastUpdateTime cn) b (vmNew (Body b))
                        (managed cn) (args cn) (evalHealth cn) (runHealth cn)
                        (exports cn)).
Proof.
  unfold UpdateBlock.
  destruct (Equals (BlockComponentID b) (id cn)) eqn:Heq; simpl.
  - apply Equals_eq in Heq. split.
    + split; [intros [msg Hm]; discriminate | intros Hne; contradiction].
    + intros _. eexists. split; [reflexivity|]. auto.
  - assert (BlockComponentID b <> id cn) as Hne.
    { intros Hid. apply Equals_eq in Hid. congruence. }
    split.
    + split; [intros _; exact Hne | intros _; eauto].
    + intros Hid. contradiction.
Qed.

(** A node on which [Evaluate] was never called fails fast. *)
Lemma Run_fresh_node now now' g b :
  Run now' (NewCustomComponentNode (E := E) (MC := MC) (Args := Args) now g b)
  = Returned ErrUnevaluated.
Proof.
  unfold Run, NewCustomComponentNode.
  destruct (ExtractImportAndDeclareLabels _). reflexivity.
Qed.

(** The guard of [Run] looks at [managed] alone. *)
Lemma Run_guard now (cn : node Args MC E) :
  (managed cn = None -> Run now cn = Returned ErrUnevaluated)
  /\ (is_Some (managed cn) -> exists cn', Run now cn = Running cn').
Proof.
  unfold Run. split.
  - intros ->. reflexivity.
  - intros [m ->]. eauto.
Qed.

Lemma publish_managed now (es : list (option E)) :
  forall cn : node Args MC E, managed (publish now cn es).1 = managed cn.
Proof.
  induction es as [|e es IH]; intros cn; [reflexivity|].
  simpl. unfold setExports.
  destruct (negb (DeepEqual (exports cn) e)); simpl.
  - destruct (publish now _ es) as [cn2 evs2] eqn:Hp. simpl.
    change cn2 with (cn2, evs2).1. rewrite <- Hp, IH. reflexivity.
  - destruct (publish now cn es) as [cn2 evs2] eqn:Hp. simpl.
    change cn2 with (cn2, evs2).1. rewrite <- Hp, IH. reflexivity.
Qed.

(** After an [Evaluate] that returns no error the managed component is
    built, so [Run] passes its guard. *)
Lemma Evaluate_ok_managed now (cn : node Args MC E) scope :
  (Evaluate GetCustomComponentConfig now cn scope).2 = None ->
  is_Some (managed (Evaluate GetCustomComponentConfig now cn scope).1.1).
Proof.
  unfold Evaluate, evaluate.
  destruct (EvaluateArgs (eval cn) scope) as [a|e]; [|discriminate].
  destruct (managed cn) as [m|] eqn:Hm.
  - destruct (GetCustomComponentConfig cn) as [cfg|e]; [|discriminate].
    destruct (LoadFlowSource m a _ _) as [[m' published] err].
    destruct (publish now (setManaged cn (Some m')) published) as [cn2 evs] eqn:Hp.
    assert (managed cn2 = Some m') as Hm2.
    { change cn2 with (cn2, evs).1. rewrite <- Hp, publish_managed. reflexivity. }
    destruct err; [discriminate|]. simpl. rewrite Hm2. eauto.
  - destruct (NewModuleComponentV2 (managedOpts cn)) as [m|e]; [|discriminate].
    destruct (GetCustomComponentConfig _) as [cfg|e]; [|discriminate].
    destruct (LoadFlowSource m a _ _) as [[m' published] err].
    destruct (publish now (setManaged _ (Some m')) published) as [cn2 evs] eqn:Hp.
    assert (managed cn2 = Some m') as Hm2.
    { change cn2 with (cn2, evs).1. rewrite <- Hp, publish_managed. reflexivity. }
    destruct err; [discriminate|]. simpl. rewrite Hm2. eauto.
Qed.

End Node.

Import ControllerMem.

(** C5, evaluated on the code.  An import config node that was only
    constructed, with no [Evaluate] at all, passes the guard of [Run]: its
    source is set by the constructor.  A custom component node whose one and
    only [Evaluate] failed, because no declare was found for it, passes the
    guard of [Run] as well: the managed component was built before the
    lookup failed. *)
Theorem Run_proceeds_without_successful_Evaluate :
  ImportConfigNode.Run 5 freshImport
  = ImportConfigNode.Running
      (ImportConfigNode.setRunHealth freshImport
         (mkHealth HealthTypeHealthy "started component" 5)) false
  /\ (let '(cn, _, err) := Evaluate noConfig 1 freshCustom ∅ in
      err = Some "retrieving custom component config: declareLabel test not found"
      /\ Run 5 cn
         = Running (setRunHealth cn (mkHealth HealthTypeHealthy "started custom component" 5))).
Proof.
  split.
  - reflexivity.
  - vm_compute. split; reflexivity.
Qed.

(** The nodes of the example do fail fast where the guard can see that
    nothing was evaluated: a custom component node that was only
    constructed. *)
Example Run_fresh_custom_node : Run 5 freshCustom = Returned ErrUnevaluated.
Proof. reflexivity. Qed.

(** After an [Evaluate] that finds its declare and succeeds, [Run] passes
    the guard as intended. *)
Example Run_after_successful_Evaluate :
  let '(cn, _, err) := Evaluate someConfig 1 freshCustom ∅ in
  err = None
  /\ Run 5 cn
     = Running (setRunHealth cn (mkHealth HealthTypeHealthy "started custom component" 5)).
Proof. vm_compute. split; reflexivity. Qed.

(** A block with the node's ID replaces block and evaluator; a block with
    another label makes [UpdateBlock] panic. *)
Example UpdateBlock_same_and_other_id :
  UpdateBlock freshCustom customBlock'
  = Done (setBlock freshCustom customBlock' (vmNew [AttributeStmt "input" "2"]))
  /\ UpdateBlock freshCustom otherBlock
     = Panicked "UpdateBlock called with an River block with a different component ID".
Proof. split; reflexivity. Qed.

(** Exports [{output = 10}] set twice: the second call changes nothing and
    notifies nobody. *)
Example setExports_twice :
  let e : option (gmap string Z) := Some {[ "output" := 10 ]} in
  let '(cn1, evs1) := setExports 3 freshCustom e in
  evs1 = [NodeUpdated "mod.test.one"]
  /\ lastUpdateTime cn1 = 3
  /\ setExports 4 cn1 e = (cn1, []).
Proof. vm_compute. auto. Qed.

End CustomComponentNodeFacts.

(** ** Sequences of calls on an appender *)

Module LinearOpsFacts.
Import Go Linear LinearOps.

Section Ops.
Variable sizeOf : Sample -> Z.
Context {D : Type} `{QueueStore D}.

Lemma counted_empty (a : appender) :
  counted a -> totalMetrics (l a) = 0 -> metrics (l a) = [].
Proof.
  unfold counted. intros Hc Hz. rewrite Hz in Hc.
  destruct (metrics (l a)); [reflexivity | simpl in Hc; lia].
Qed.

Lemma commit_handed (c : Queue D) (a : appender) :
  counted a -> handed (commit c a) = (handed c ++ metrics (l a))%list.
Proof.
  intros Hc. unfold commit, handed.
  destruct (Z.eqb_spec (totalMetrics (l a)) 0) as [Hz|Hz].
  - rewrite (counted_empty a Hc Hz), app_nil_r. reflexivity.
  - destruct (AddCommited (database c) _) as [d [key err]]. simpl.
    rewrite fmap_app, concat_app. simpl. rewrite app_nil_r. reflexivity.
Qed.

(** When no write failed, what was handed over was written. *)
Lemma written_handed (c : Queue D) :
  Forall (fun o => o.2 = None) (offered c) -> written c = handed c.
Proof.
  unfold written, handed. intros Hall.
  induction (offered c) as [|o rest IH]; [reflexivity|].
  apply Forall_cons in Hall as [Ho Hrest].
  rewrite filter_cons. destruct (decide (o.2 = None)) as [_|Hn]; [|contradiction].
  rewrite !fmap_cons, !concat_cons, (IH Hrest). reflexivity.
Qed.

(** One call adds the samples it accepts, in order, and nothing else. *)
Lemma step_holds_accepted (st : Queue D * appender) (k : call) :
  counted st.2 ->
  taken (step sizeOf st k).1 (step sizeOf st k).2
  = (taken st.1 st.2 ++ accepted (ttl st.2) k)%list
  /\ ttl (step sizeOf st k).2 = ttl st.2
  /\ counted (step sizeOf st k).2.
Proof.
  destruct st as [c a]. simpl. intros Hc.
  destruct k as [now ref lbls t v| | | | |]; simpl;
    try (rewrite app_nil_r; auto).
  - unfold Append.
    destruct (t <? wrap64 (now - Seconds_int64 (ttl a))); simpl.
    + rewrite app_nil_r. auto.
    + destruct (_ >? _); simpl.
      * unfold taken. simpl. rewrite commit_handed.
        -- simpl. rewrite !app_nil_r, app_assoc. repeat split.
        -- unfold counted in *. simpl. rewrite length_app. simpl. lia.
      * unfold taken. simpl. rewrite app_assoc.
        split; [reflexivity|]. split; [reflexivity|].
        unfold counted in *. simpl. rewrite length_app. simpl. lia.
  - unfold taken. simpl. rewrite (commit_handed c a Hc), !app_nil_r. repeat split.
Qed.

(** After any sequence of calls on an appender, the samples handed to
    [AddCommited] so far followed by those in the batch are what they were
    before followed by exactly the samples that [Append] accepted, in the
    order of the calls: every accepted sample reaches a call of
    [AddCommited] once, or is still in the batch; exemplars, histograms and
    metadata never get in, and neither [Commit] nor a flush reorders or
    repeats a sample.  Whether a sample handed over is stored is up to
    [AddCommited], whose error is only logged: when no write has failed,
    the samples handed over are the samples written. *)
Theorem run_holds_accepted (st : Queue D * appender) (calls : list call) :
  counted st.2 ->
  taken (run sizeOf st calls).1 (run sizeOf st calls).2
  = (taken st.1 st.2 ++ flat_map (accepted (ttl st.2)) calls)%list
  /\ ttl (run sizeOf st calls).2 = ttl st.2
  /\ (Forall (fun o => o.2 = None) (offered (run sizeOf st calls).1) ->
      written (run sizeOf st calls).1 = handed (run sizeOf st calls).1).
Proof.
  intros Hc. split; [|split; [|apply written_handed]]; revert st Hc.
  - induction calls as [|k calls IH]; intros st Hc.
    + simpl. rewrite app_nil_r. reflexivity.
    + simpl. destruct (step_holds_accepted st k Hc) as (Hh & Ht & Hc').
      unfold run in *. rewrite (IH (step sizeOf st k) Hc'), Hh, Ht, app_assoc.
      reflexivity.
  - induction calls as [|k calls IH]; intros st Hc; [reflexivity|].
    simpl. destruct (step_holds_accepted st k Hc) as (Hh & Ht & Hc').
    unfold run in *. rewrite (IH (step sizeOf st k) Hc'), Ht. reflexivity.
Qed.

Lemma step_bounds_batch (st : Queue D * appender) (k : call) :
  estimatedSize (l st.2) <= 16 * 1024 * 1024 ->
  estimatedSize (l (step sizeOf st k).2) <= 16 * 1024 * 1024.
Proof.
  destruct st as [c a]. simpl. intros Hb.
  destruct k as [now ref lbls t v| | | | |]; simpl; try exact Hb; try lia.
  unfold Append.
  destruct (t <? _); simpl; [exact Hb|].
  destruct (Z.gtb_spec (estimatedSize (l a) + sizeOf (mkSample lbls t v))
                       (16 * 1024 * 1024)); simpl; lia.
Qed.

(** The estimated size of the batch never stays above 16 MiB: whatever the
    size estimate of a sample, a batch within the bound is within the bound
    after any sequence of calls. *)
Theorem run_bounds_batch (st : Queue D * appender) (calls : list call) :
  estimatedSize (l st.2) <= 16 * 1024 * 1024 ->
  estimatedSize (l (run sizeOf st calls).2) <= 16 * 1024 * 1024.
Proof.
  revert st. induction calls as [|k calls IH]; intros st Hb; [exact Hb|].
  simpl. apply IH. apply step_bounds_batch. exact Hb.
Qed.

End Ops.

Import LinearMem.

(** The calls of the example on a fresh appender in front of a full disk:
    the fresh sample is handed over by the commit, the stale one and the
    exemplar are not; the write fails, and the sample is in neither the
    batch nor the queue. *)
Lemma run_holds_accepted_witness :
  counted (newAppender (3600 * Second))
  /\ taken (run (fun _ => 16) (fullQueue, newAppender (3600 * Second)) sampleCalls).1
           (run (fun _ => 16) (fullQueue, newAppender (3600 * Second)) sampleCalls).2
     = [mkSample up 1699999999000 1]
  /\ run (fun _ => 16) (fullQueue, newAppender (3600 * Second)) sampleCalls
     = (mkQueue (mkDisk [] 0)
                [([mkSample up 1699999999000 1], Some "no space left on device")],
        mkAppender (3600 * Second) emptyLinear 1).
Proof.
  split; [reflexivity|]. split; [|reflexivity].
  exact (proj1 (run_holds_accepted (fun _ => 16)
                  (fullQueue, newAppender (3600 * Second)) sampleCalls eq_refl)).
Defined.

(** With samples estimated at 9 MiB each, the second accepted sample
    flushes the batch. *)
Lemma run_bounds_batch_witness :
  estimatedSize (l (newAppender (3600 * Second))) <= 16 * 1024 * 1024
  /\ estimatedSize
       (l (run (fun _ => 9 * 1024 * 1024) (emptyQueue, newAppender (3600 * Second))
              [CallAppend 1700000000000 1 up 1700000000000 1;
               CallAppend 1700000000000 1 up 1700000000000 2]).2)
     <= 16 * 1024 * 1024.
Proof.
  assert (estimatedSize (l (newAppender (3600 * Second))) <= 16 * 1024 * 1024) as Hb
    by (vm_compute; discriminate).
  split; [exact Hb|].
  exact (run_bounds_batch (fun _ => 9 * 1024 * 1024)
           (emptyQueue, newAppender (3600 * Second)) _ Hb).
Defined.

Example flush_at_16MiB :
  run (fun _ => 9 * 1024 * 1024) (emptyQueue, newAppender (3600 * Second))
      [CallAppend 1700000000000 1 up 1700000000000 1;
       CallAppend 1700000000000 1 up 1700000000000 2]
  = (mkQueue [[mkSample up 1700000000000 1; mkSample up 1700000000000 2]]
             [([mkSample up 1700000000000 1; mkSample up 1700000000000 2], None)],
     newAppender (3600 * Second)).
Proof. reflexivity. Qed.

End LinearOpsFacts.

(** ** More on the writer *)

Module WriterFacts.
Import Go Simple.

Section Writer.
Context {S Q : Type} `{DbStore S} `{QueueManager Q}.

(** A writer never starts at key 0: with an empty store and no bookmark,
    or a bookmark at key 0, it starts at key 1. *)
Theorem newWriter_key_positive (parent : string) (q : Q) (s : S) :
  currentKey (newWriter parent q s) <> 0%N
  /\ to (newWriter parent q s) = q
  /\ store (newWriter parent q s) = s
  /\ parentId (newWriter parent q s) = parent.
Proof.
  unfold newWriter. simpl.
  destruct (GetBookmark s _) as [v|]; simpl.
  - destruct (N.eqb_spec (Key v) 0); simpl;
      repeat split; try reflexivity; try discriminate; assumption.
  - destruct (N.eqb_spec (GetOldestKey s) 0); simpl;
      repeat split; try reflexivity; try discriminate; assumption.
Qed.

(** [Start] moves to the next key before it reads anything: the first key
    it looks up is [GetNextKey] of the key the writer was constructed with,
    and only when that differs; the entry stored at the start key itself is
    not the first one read. *)
Theorem StartInit_first_lookup (w : writer S Q) :
  let '(w', lv) := StartInit w in
  currentKey w' = GetNextKey (store w) (currentKey w)
  /\ success lv = true
  /\ lookedUp w' lv
     = (if (currentKey w =? GetNextKey (store w) (currentKey w))%N
        then None else Some (GetNextKey (store w) (currentKey w)))
  /\ lookedUp w' lv <> Some (currentKey w).
Proof.
  unfold StartInit, incrementKey, lookedUp. simpl.
  destruct (N.eqb_spec (currentKey w) (GetNextKey (store w) (currentKey w))) as [He|Hne];
    simpl; repeat split; try discriminate.
  intros [= Hk]. congruence.
Qed.

(** A pass that finds no entry at the current key contacts neither the
    remote nor the store: no bookmark is written.  When the last
    submission had succeeded the writer still moves on to the next key;
    when it had failed the writer stays. *)
Theorem iteration_no_entry (w : writer S Q) (lv : loopVars) :
  GetSignal (store w) (currentKey w) = None ->
  let '(w', lv', timeOut) := iteration w lv in
  to w' = to w /\ store w' = store w
  /\ success lv' = success lv /\ err lv' = err lv
  /\ currentKey w'
     = (if success lv then GetNextKey (store w) (currentKey w) else currentKey w).
Proof.
  intros Hnone. unfold iteration. rewrite Hnone.
  destruct (newKey lv || negb (success lv)); simpl;
    destruct (success lv); simpl; auto.
Qed.

Lemma iteration_idle (w : writer S Q) (lv : loopVars) :
  newKey lv = false -> success lv = true ->
  GetNextKey (store w) (currentKey w) = currentKey w ->
  iteration w lv = (w, lv, 1 * Second).
Proof.
  intros Hn Hs Hk. unfold iteration, incrementKey. rewrite Hn, Hs. simpl.
  rewrite Hk, N.eqb_refl. simpl.
  destruct w, lv. simpl in *. subst. reflexivity.
Qed.

(** While the store reports no key after the current one, a writer that
    has delivered everything does nothing at all, pass after pass: no
    lookup, no submission, no bookmark, one second between passes. *)
Theorem iterate_idle (n : nat) (w : writer S Q) (lv : loopVars) :
  newKey lv = false -> success lv = true ->
  GetNextKey (store w) (currentKey w) = currentKey w ->
  iterate n w lv = (w, lv) /\ lookedUp w lv = None.
Proof.
  intros Hn Hs Hk. split.
  - induction n as [|n IH]; [reflexivity|].
    simpl. rewrite (iteration_idle w lv Hn Hs Hk). exact IH.
  - unfold lookedUp. rewrite Hn, Hs. reflexivity.
Qed.

Lemma iteration_stuck (w : writer S Q) (lv : loopVars) :
  success lv = false ->
  GetSignal (store w) (currentKey w) = None ->
  iteration w lv = (w, lv, 1 * Second).
Proof.
  intros Hs Hnone. unfold iteration. rewrite Hs, Hnone, orb_true_r. simpl.
  destruct lv. simpl in *. subst. reflexivity.
Qed.

(** A writer whose last submission failed and whose entry at the current
    key is no longer in the store never moves again: every pass looks the
    key up, finds nothing, and leaves the writer as it is, whatever newer
    entries the store holds. *)
Theorem iterate_stuck (n : nat) (w : writer S Q) (lv : loopVars) :
  success lv = false ->
  GetSignal (store w) (currentKey w) = None ->
  iterate n w lv = (w, lv) /\ lookedUp w lv = Some (currentKey w).
Proof.
  intros Hs Hnone. split.
  - induction n as [|n IH]; [reflexivity|].
    simpl. rewrite (iteration_stuck w lv Hs Hnone). exact IH.
  - unfold lookedUp. rewrite Hs, orb_true_r. reflexivity.
Qed.

End Writer.

Import SimpleMem OpsMem.

Lemma iteration_no_entry_witness :
  GetSignal (store stuckWriter) (currentKey stuckWriter) = None
  /\ currentKey (iteration stuckWriter freshKey).1.1 = 10%N
  /\ store (iteration stuckWriter freshKey).1.1 = store stuckWriter.
Proof.
  split; [reflexivity|].
  pose proof (iteration_no_entry stuckWriter freshKey eq_refl) as Hit.
  destruct (iteration stuckWriter freshKey) as [[w' lv'] t].
  destruct Hit as (_ & Hs & _ & _ & Hk). simpl. split; [exact Hk | exact Hs].
Defined.

Lemma iterate_idle_witness :
  newKey idleVars = false /\ success idleVars = true
  /\ GetNextKey (store idleWriter) (currentKey idleWriter) = currentKey idleWriter
  /\ iterate 100 idleWriter idleVars = (idleWriter, idleVars).
Proof.
  split; [reflexivity|]. split; [reflexivity|]. split; [reflexivity|].
  exact (proj1 (iterate_idle 100 idleWriter idleVars eq_refl eq_refl eq_refl)).
Defined.

(** The store holds entries 10 and 11, the writer waits at key 5. *)
Lemma iterate_stuck_witness :
  success failedVars = false
  /\ GetSignal (store stuckWriter) (currentKey stuckWriter) = None
  /\ GetSignal (store stuckWriter) 10%N = Some (Samples [1])
  /\ iterate 100 stuckWriter failedVars = (stuckWriter, failedVars).
Proof.
  split; [reflexivity|]. split; [reflexivity|]. split; [reflexivity|].
  exact (proj1 (iterate_stuck 100 stuckWriter failedVars eq_refl eq_refl)).
Defined.

(** A store with entries 10 and 11 and no bookmark: the writer is
    constructed at key 10, [Start] moves it to key 11 before the first
    pass, and after any number of passes only the entry of key 11 was
    sent. *)
Example Start_skips_start_key :
  currentKey (newWriter "c1" mimir newStore) = 10%N
  /\ (let '(w, lv) := StartInit (newWriter "c1" mimir newStore) in
      lookedUp w lv = Some 11%N
      /\ sent (to (iterate 5 w lv).1) = [[2]]).
Proof. vm_compute. auto. Qed.

End WriterFacts.

(** ** More on the git import source *)

Module GitFacts.
Import Go ImportSource ImportSourceOps.

Lemma last_default (contents : list string) (a d1 d2 : string) :
  List.last (a :: contents) d1 = List.last (a :: contents) d2.
Proof.
  revert a. induction contents as [|b rest IH]; intros a; [reflexivity|].
  change (List.last (b :: rest) d1 = List.last (b :: rest) d2). apply IH.
Qed.

Lemma last_cons (contents : list string) (d prev : string) :
  List.last (d :: contents) prev = List.last contents d.
Proof.
  destruct contents as [|b rest]; [reflexivity|].
  change (List.last (b :: rest) prev = List.last (b :: rest) d). apply last_default.
Qed.

Lemma changesFrom_snoc (prev : string) (contents : list string) (c : string) :
  changesFrom prev (contents ++ [c])
  = changesFrom prev contents && negb (String.eqb (List.last contents prev) c).
Proof.
  revert prev. induction contents as [|d rest IH]; intros prev.
  - simpl. rewrite andb_true_r. reflexivity.
  - change ((d :: rest) ++ [c])%list with (d :: (rest ++ [c]))%list.
    simpl changesFrom. rewrite IH, andb_assoc, last_cons. reflexivity.
Qed.

Lemma last_snoc (contents : list string) (prev c : string) :
  List.last (contents ++ [c]) prev = c.
Proof. apply List.last_last. Qed.

Section Git.
Context {W R : Type} `{Vcs W R}.

(** A failed poll leaves the source as it is; a successful one records the
    content it read and hands it to the callback if it is new. *)
Lemma pollFile_cases (w : W) (im : ImportGit R) (a : Arguments) :
  let '(w', im', err) := pollFile w im a in
  match err with
  | Some _ => im' = im
  | None =>
      opts im' = opts im /\ repo im' = repo im /\ repoOpts im' = repoOpts im
      /\ args im' = args im /\ argsChanged im' = argsChanged im
      /\ health im' = health im
      /\ delivered im'
         = (delivered im ++ (if String.eqb (lastContent im) (lastContent im')
                             then [] else [lastContent im']))%list
  end.
Proof.
  unfold pollFile.
  destruct (RepoUpdate w (repo im)) as [w1 [e|]]; [reflexivity|].
  destruct (RepoReadFile w1 (repo im) (argPath a)) as [content [e|]]; [reflexivity|].
  destruct (String.eqb (lastContent im) content) eqn:Heq; simpl.
  - rewrite String.eqb_refl, app_nil_r. repeat split.
  - rewrite Heq. repeat split.
Qed.

(** The two facts about delivered contents are kept by a poll. *)
Lemma pollFile_delivered (w : W) (im : ImportGit R) (a : Arguments) :
  changesFrom "" (delivered im) = true ->
  lastContent im = List.last (delivered im) "" ->
  changesFrom "" (delivered (pollFile w im a).1.2) = true
  /\ lastContent (pollFile w im a).1.2 = List.last (delivered (pollFile w im a).1.2) "".
Proof.
  intros Hc Hl.
  pose proof (pollFile_cases w im a) as Hp.
  destruct (pollFile w im a) as [[w' im'] [e|]]; simpl.
  - subst im'. auto.
  - destruct Hp as (_ & _ & _ & _ & _ & _ & Hd). rewrite Hd.
    destruct (String.eqb (lastContent im) (lastContent im')) eqn:Heq.
    + rewrite app_nil_r. apply String.eqb_eq in Heq. rewrite <- Heq. auto.
    + rewrite changesFrom_snoc, last_snoc, Hc, <- Hl, Heq. auto.
Qed.

(** [Update] reports exactly what it returns: after a nil return the
    health is Healthy, the new arguments are stored and the run loop is
    signalled, even if the repository could not be refreshed; after an
    error, which is never an update failure, the health is Unhealthy with
    the error's message, and the arguments, the signal and the last content
    are as before. *)
Theorem Update_health_follows_error now (w : W) (im : ImportGit R) newArgs :
  let '(w', im', err, calls) := Update now w im newArgs in
  match err with
  | None =>
      health im' = mkHealth HealthTypeHealthy "module updated" now
      /\ args im' = newArgs /\ argsChanged im' = true
  | Some e =>
      isUpdateFailed e = false
      /\ health im' = mkHealth HealthTypeUnhealthy (errMessage e) now
      /\ args im' = args im /\ argsChanged im' = argsChanged im
      /\ lastContent im' = lastContent im /\ delivered im' = delivered im
  end.
Proof.
  unfold Update.
  destruct (isNil (repo im) || negb (bool_decide (optionsOf newArgs = repoOpts im))).
  - destruct (NewGitRepo w _ _) as [w1 [r [e|]]].
    + destruct (isUpdateFailed e) eqn:He.
      * match goal with |- context [pollFile w1 ?i newArgs] =>
          pose proof (pollFile_cases w1 i newArgs) as Hp;
          destruct (pollFile w1 i newArgs) as [[w2 im2] [e2|]]
        end.
        -- subst im2. destruct (isUpdateFailed e2) eqn:He2; simpl; auto 10.
        -- simpl. auto.
      * simpl. auto 10.
    + match goal with |- context [pollFile w1 ?i newArgs] =>
        pose proof (pollFile_cases w1 i newArgs) as Hp;
        destruct (pollFile w1 i newArgs) as [[w2 im2] [e2|]]
      end.
      * subst im2. destruct (isUpdateFailed e2) eqn:He2; simpl; auto 10.
      * simpl. auto.
  - pose proof (pollFile_cases w im newArgs) as Hp.
    destruct (pollFile w im newArgs) as [[w2 im2] [e2|]].
    + subst im2. destruct (isUpdateFailed e2) eqn:He2; simpl; auto 10.
    + simpl. auto.
Qed.

Lemma Update_ok_args now (w : W) (im : ImportGit R) newArgs :
  (Update now w im newArgs).1.2 = None ->
  args (Update now w im newArgs).1.1.2 = newArgs.
Proof.
  unfold Update.
  destruct (isNil (repo im) || negb (bool_decide (optionsOf newArgs = repoOpts im))).
  - destruct (NewGitRepo w _ _) as [w1 [r [e|]]].
    + destruct (isUpdateFailed e); [|discriminate].
      destruct (pollFile w1 _ newArgs) as [[w2 im2] [e2|]];
        [destruct (isUpdateFailed e2); [|discriminate]|]; reflexivity.
    + destruct (pollFile w1 _ newArgs) as [[w2 im2] [e2|]];
        [destruct (isUpdateFailed e2); [|discriminate]|]; reflexivity.
  - destruct (pollFile w im newArgs) as [[w2 im2] [e2|]];
      [destruct (isUpdateFailed e2); [|discriminate]|]; reflexivity.
Qed.

(** Once [Update] has accepted arguments, evaluating the block to the same
    arguments again does nothing: no call of the git library, no change of
    the source, a nil error, in whatever state the repository is. *)
Theorem Evaluate_after_Update now now' (w w' : W) (im : ImportGit R) newArgs :
  (Update now w im newArgs).1.2 = None ->
  Evaluate now' w' (Update now w im newArgs).1.1.2 (inl newArgs)
  = (w', (Update now w im newArgs).1.1.2, None, []).
Proof.
  intros Hok. unfold Evaluate.
  rewrite (Update_ok_args now w im newArgs Hok).
  rewrite bool_decide_eq_true_2 by reflexivity. reflexivity.
Qed.

Lemma Update_delivered now (w : W) (im : ImportGit R) newArgs :
  changesFrom "" (delivered im) = true ->
  lastContent im = List.last (delivered im) "" ->
  changesFrom "" (delivered (Update now w im newArgs).1.1.2) = true
  /\ lastContent (Update now w im newArgs).1.1.2
     = List.last (delivered (Update now w im newArgs).1.1.2) "".
Proof.
  intros Hc Hl. unfold Update.
  destruct (isNil (repo im) || negb (bool_decide (optionsOf newArgs = repoOpts im))).
  - destruct (NewGitRepo w _ _) as [w1 [r [e|]]].
    + destruct (isUpdateFailed e); [|simpl; auto].
      match goal with |- context [pollFile w1 ?i newArgs] =>
        pose proof (pollFile_delivered w1 i newArgs Hc Hl) as Hp;
        destruct (pollFile w1 i newArgs) as [[w2 im2] [e2|]]
      end; [destruct (isUpdateFailed e2)|]; exact Hp.
    + match goal with |- context [pollFile w1 ?i newArgs] =>
        pose proof (pollFile_delivered w1 i newArgs Hc Hl) as Hp;
        destruct (pollFile w1 i newArgs) as [[w2 im2] [e2|]]
      end; [destruct (isUpdateFailed e2)|]; exact Hp.
  - pose proof (pollFile_delivered w im newArgs Hc Hl) as Hp.
    destruct (pollFile w im newArgs) as [[w2 im2] [e2|]];
      [destruct (isUpdateFailed e2)|]; exact Hp.
Qed.

(** The callback [onContentChange] is never invoked twice in a row with the
    same content, and never with the empty content first: over the whole
    life of a source, through updates, evaluations and polls, each content
    handed over differs from the one handed over before it, and the last
    one is the [lastContent] the source remembers. *)
Theorem delivered_contents_change (im : ImportGit R) :
  reachable im ->
  changesFrom "" (delivered im) = true
  /\ lastContent im = List.last (delivered im) "".
Proof.
  intros Hr.
  induction Hr as [managedOpts|now w im newArgs _ [Hc Hl]
                  |now w im decoded _ [Hc Hl]|now w im _ [Hc Hl]].
  - split; reflexivity.
  - apply Update_delivered; assumption.
  - unfold Evaluate. destruct decoded as [arguments|e]; [|simpl; auto].
    destruct (bool_decide (args im = arguments)); [simpl; auto|].
    pose proof (Update_delivered now w im arguments Hc Hl) as Hu.
    destruct (Update now w im arguments) as [[[w2 im2] [e2|]] calls]; exact Hu.
  - unfold tickPollFile.
    pose proof (pollFile_delivered w im (args im) Hc Hl) as Hp.
    destruct (pollFile w im (args im)) as [[w2 im2] err].
    simpl in *. destruct err; exact Hp.
Qed.

End Git.

Import GitMem.

Lemma Evaluate_after_Update_witness :
  (Update 1 emptyWorld modSource argsA).1.2 = None
  /\ Evaluate 2 afterA.1 afterA.2 (inl argsA) = (afterA.1, afterA.2, None, []).
Proof.
  split; [reflexivity|].
  exact (Evaluate_after_Update 1 2 emptyWorld afterA.1 modSource argsA eq_refl).
Defined.

(** The source after an update to [a.git], a poll, and an update to
    [b.git]. *)
Lemma delivered_contents_change_witness :
  reachable (Update 3 afterA.1 (tickPollFile 2 afterA.1 afterA.2).2 argsB).1.1.2
  /\ changesFrom ""
       (delivered (Update 3 afterA.1 (tickPollFile 2 afterA.1 afterA.2).2 argsB).1.1.2)
     = true
  /\ lastContent (Update 3 afterA.1 (tickPollFile 2 afterA.1 afterA.2).2 argsB).1.1.2
     = List.last
         (delivered (Update 3 afterA.1 (tickPollFile 2 afterA.1 afterA.2).2 argsB).1.1.2)
         "".
Proof.
  assert (reachable (Update 3 afterA.1 (tickPollFile 2 afterA.1 afterA.2).2 argsB).1.1.2)
    as Hr.
  { apply reach_update. apply reach_tick.
    exact (reach_update 1 emptyWorld modSource argsA (reach_new _)). }
  split; [exact Hr|].
  exact (delivered_contents_change _ Hr).
Defined.

(** In that run two contents were delivered, one per repository; the poll
    in between found nothing new. *)
Example delivered_once_per_repository :
  delivered (Update 3 afterA.1 (tickPollFile 2 afterA.1 afterA.2).2 argsB).1.1.2
  = ["https://git.example/a.git@HEAD:mod.river";
     "https://git.example/b.git@HEAD:mod.river"].
Proof. vm_compute. reflexivity. Qed.

End GitFacts.

(** ** More on import config nodes *)

Module ImportNodeFacts.
Import Go Controller ImportConfigNode ImportConfigNodeOps.

Lemma append_inj_l (p a b : string) : p +:+ a = p +:+ b -> a = b.
Proof.
  induction p as [|c p IH]; [intros Hab; exact Hab|].
  rewrite !GoFacts.append_cons. intros [= Hab]. apply IH. exact Hab.
Qed.

Section Node.
Context {Src Scope : Type} `{Imports Src Scope}.
Variable childEvaluate : node Src -> Scope -> outcome (node Src * bool * option error).

(** Statements that are neither declare nor import blocks have no effect
    on the outcome: they are passed over, the update is not rejected
    because of them. *)
Theorem processNodeBody_skips_others now (f : File) content :
  forall cn : node Src,
  processNodeBody now cn (filter relevant f) content = processNodeBody now cn f content.
Proof.
  unfold File in *.
  induction f as [|stmt rest IH]; intros cn; [reflexivity|].
  rewrite filter_cons.
  destruct stmt as [name value|stmt].
  - destruct (decide (relevant (AttributeStmt name value))) as [Hr|Hr];
      [destruct Hr|]. simpl. apply IH.
  - unfold relevant, isDeclare, isImport. cbv zeta. simpl processNodeBody at 2.
    destruct (String.eqb (Join (Name stmt) ".") "declare") eqn:Hd; simpl orb.
    + destruct (decide (Is_true true)) as [_|Hn]; [|destruct Hn; exact I].
      simpl. rewrite Hd.
      destruct (processDeclareBlock cn stmt content); simpl; [apply IH | reflexivity].
    + destruct (String.eqb (Join (Name stmt) ".") BlockImportFile
                || String.eqb (Join (Name stmt) ".") BlockImportGit
                || String.eqb (Join (Name stmt) ".") BlockImportHTTP) eqn:Hi.
      * destruct (decide (Is_true true)) as [_|Hn]; [|destruct Hn; exact I].
        simpl. rewrite Hd, Hi.
        destruct (processImportBlock now cn stmt _); simpl; [apply IH | reflexivity].
      * destruct (decide (Is_true false)) as [Hn|_]; [destruct Hn|].
        simpl. apply IH.
Qed.

Lemma processDeclareBlock_frame (cn cn' : node Src) stmt content :
  processDeclareBlock cn stmt content = Done cn' ->
  importConfigNodesChildren cn' = importConfigNodesChildren cn
  /\ globals cn' = globals cn /\ label cn' = label cn.
Proof.
  unfold processDeclareBlock.
  destruct (importedDeclares cn !! Label stmt); [intros [= <-]; auto|].
  destruct (slice content _ _); [|discriminate]. simpl.
  destruct (mapAssign _ _ _); [|discriminate]. intros [= <-]. auto.
Qed.

Lemma processImportBlock_lookup now (cn cn' : node Src) stmt fullName l :
  processImportBlock now cn stmt fullName = Done cn' ->
  importConfigNodesChildren cn' !! l =
    match importConfigNodesChildren cn !! l with
    | Some c => Some c
    | None => if String.eqb (Label stmt) l
              then Some (NewImportConfigNode now stmt (globals cn) (GetSourceType fullName))
              else None
    end
  /\ globals cn' = globals cn /\ label cn' = label cn.
Proof.
  unfold processImportBlock.
  destruct (importConfigNodesChildren cn !! Label stmt) as [c|] eqn:Hl.
  - intros [= <-]. split; [|auto].
    destruct (importConfigNodesChildren cn !! l) eqn:Hl'; [reflexivity|].
    destruct (String.eqb_spec (Label stmt) l); [congruence | reflexivity].
  - simpl. destruct (mapAssign _ _ _) as [m|msg] eqn:Hm; [|discriminate].
    intros [= <-]. simpl. split; [|auto].
    rewrite (GoFacts.mapAssign_lookup _ _ l _ _ Hm).
    destruct (String.eqb_spec (Label stmt) l) as [Heq|Hne].
    + subst l. rewrite decide_True by reflexivity. rewrite Hl. reflexivity.
    + rewrite decide_False by exact Hne.
      destruct (importConfigNodesChildren cn !! l); reflexivity.
Qed.

(** The nested imports of a file: under each label stands a fresh node for
    the first import block with that label, of the kind its block name
    says; a later import block with the same label is passed over. *)
Theorem processNodeBody_children_first_wins now content (f : File) :
  forall (cn cn' : node Src) l,
  processNodeBody now cn f content = Done cn' ->
  importConfigNodesChildren cn' !! l =
    match importConfigNodesChildren cn !! l with
    | Some c => Some c
    | None =>
        (fun b => NewImportConfigNode now b (globals cn) (GetSourceType (Join (Name b) ".")))
          <$> firstImport f l
    end.
Proof.
  induction f as [|stmt rest IH]; intros cn cn' l.
  - simpl. intros [= <-]. destruct (importConfigNodesChildren cn !! l); reflexivity.
  - destruct stmt as [name value|stmt]; simpl.
    + apply IH.
    + unfold firstImport. simpl. unfold isDeclare at 1, isImport at 1. cbv zeta.
      destruct (String.eqb (Join (Name stmt) ".") "declare") eqn:Hd; simpl.
      * destruct (processDeclareBlock cn stmt content) as [cn1|msg] eqn:Hb;
          [|discriminate].
        simpl. intros Hp. apply (IH _ _ l) in Hp.
        apply processDeclareBlock_frame in Hb as (Hc & Hg & _).
        rewrite Hp, Hc, Hg. reflexivity.
      * destruct (String.eqb (Join (Name stmt) ".") BlockImportFile
                  || String.eqb (Join (Name stmt) ".") BlockImportGit
                  || String.eqb (Join (Name stmt) ".") BlockImportHTTP) eqn:Hi;
          simpl.
        -- destruct (processImportBlock now cn stmt _) as [cn1|msg] eqn:Hb;
             [|discriminate].
           simpl. intros Hp. apply (IH _ _ l) in Hp.
           apply (processImportBlock_lookup _ _ _ _ _ l) in Hb as (Hb & Hg & _).
           rewrite Hp, Hb, Hg.
           destruct (importConfigNodesChildren cn !! l); [reflexivity|].
           destruct (String.eqb (Label stmt) l); reflexivity.
        -- intros Hp. apply (IH _ _ l) in Hp. exact Hp.
Qed.

(** [processDeclareBlock] panics in two cases and no other.  With a label
    that is not yet present it panics on the slice exactly when the braces
    leave no room for [content[LCurly+1 : RCurly-1]], as the adjacent
    braces of an empty body do; with braces in range it panics on the
    assignment exactly when the map of declares is nil, as it is on a node
    whose content was never updated.  A block under a label that is already
    present is neither sliced nor assigned. *)
Theorem processDeclareBlock_panics (cn : node Src) (stmt : BlockStmt) (content : string) :
  (processDeclareBlock cn stmt content = Panicked "slice bounds out of range"
   <-> importedDeclares cn !! Label stmt = None /\ ~ bracesInBounds content stmt)
  /\ (processDeclareBlock cn stmt content = Panicked "assignment to entry in nil map"
      <-> importedDeclares cn = None /\ bracesInBounds content stmt)
  /\ (forall msg, processDeclareBlock cn stmt content = Panicked msg ->
        msg = "slice bounds out of range" \/ msg = "assignment to entry in nil map").
Proof.
  unfold processDeclareBlock, bracesInBounds, slice.
  destruct (importedDeclares cn) as [g|] eqn:Hm.
  - rewrite GoFacts.gomap_lookup_Some.
    destruct (g !! Label stmt) as [d|].
    + split; [|split]; [split; [discriminate | intros [Hn _]; discriminate]
                       |split; [discriminate | intros [Hn _]; discriminate]
                       |discriminate].
    + destruct (Z.leb_spec 0 (LCurlyPos stmt + 1));
        destruct (Z.leb_spec (LCurlyPos stmt + 1) (RCurlyPos stmt - 1));
        destruct (Z.leb_spec (RCurlyPos stmt - 1) (Z.of_nat (String.length content)));
        simpl; (split; [|split]);
        try (split; [discriminate | intros [Hn _]; discriminate]);
        try (split; [discriminate | intros [_ Hn]; exfalso; apply Hn; lia]);
        try (split; [intros _; split; [reflexivity | lia] | reflexivity]);
        try discriminate;
        try (intros msg [= <-]; auto).
  - rewrite GoFacts.gomap_lookup_None.
    destruct (Z.leb_spec 0 (LCurlyPos stmt + 1));
      destruct (Z.leb_spec (LCurlyPos stmt + 1) (RCurlyPos stmt - 1));
      destruct (Z.leb_spec (RCurlyPos stmt - 1) (Z.of_nat (String.length content)));
      simpl; (split; [|split]);
      try (split; [discriminate | intros [_ Hn]; exfalso; apply Hn; lia]);
      try (split; [intros _; split; [reflexivity | lia] | reflexivity]);
      try (split; [discriminate | intros [_ Hn]; lia]);
      try (intros msg [= <-]; auto).
Qed.

Lemma foldr_insert_hit (f : string -> string) (entries : list (string * Declare_))
    (m : gmap string Declare_) x d :
  (forall a b, f a = f b -> a = b) ->
  NoDup entries.*1 ->
  (x, d) ∈ entries ->
  foldr (fun '(k, v) acc => <[f k := v]> acc) m entries !! f x = Some d.
Proof.
  intros Hinj. induction entries as [|[k v] rest IH]; intros Hnd Hin.
  - apply elem_of_nil in Hin. destruct Hin.
  - simpl in Hnd. apply NoDup_cons in Hnd as [Hk Hnd].
    apply elem_of_cons in Hin as [Heq|Hin]; simpl.
    + injection Heq as -> ->. apply lookup_insert_eq.
    + rewrite lookup_insert_ne; [apply IH; assumption|].
      intros Hf. apply Hinj in Hf. subst k. apply Hk.
      apply list_elem_of_fmap. exists (x, d). auto.
Qed.

Lemma foldr_insert_miss (f : string -> string) (entries : list (string * Declare_))
    (m : gmap string Declare_) k :
  (forall x d, (x, d) ∈ entries -> k <> f x) ->
  foldr (fun '(x, v) acc => <[f x := v]> acc) m entries !! k = m !! k.
Proof.
  induction entries as [|[x v] rest IH]; intros Hk; [reflexivity|].
  simpl. rewrite lookup_insert_ne.
  - apply IH. intros y d Hin. apply (Hk y d). apply elem_of_cons. auto.
  - intros Hf. apply (Hk x v); [apply elem_of_cons; auto | auto].
Qed.

(** The loop of [OnChildrenContentUpdate] on a map that was made, and on
    the nil map. *)
Lemma surface_cons (childLabel : string) m k v entries :
  surface childLabel m ((k, v) :: entries)
  = (m' ← surface childLabel m entries; mapAssign m' (childLabel +:+ "." +:+ k) v).
Proof. reflexivity. Qed.

Lemma surface_made (childLabel : string) (g : gmap string Declare_) entries :
  surface childLabel (Some g) entries
  = Done (Some (foldr (fun '(k, v) acc => <[childLabel +:+ "." +:+ k := v]> acc)
                      g entries)).
Proof.
  induction entries as [|[k v] rest IH]; [reflexivity|].
  rewrite surface_cons, IH. reflexivity.
Qed.

Lemma surface_nil (childLabel : string) entries :
  surface childLabel None entries
  = match entries with
    | [] => Done None
    | _ :: _ => Panicked "assignment to entry in nil map"
    end.
Proof.
  induction entries as [|[k v] rest IH]; [reflexivity|].
  rewrite surface_cons, IH. destruct rest; reflexivity.
Qed.

Lemma surface_Done_nil (childLabel : string) m entries :
  surface childLabel m entries = Done None -> m = None.
Proof.
  destruct m as [g|]; [|reflexivity]. rewrite surface_made. discriminate.
Qed.

(** When a child surfaces its declares and the call returns, each of them
    is reachable in the parent under [<child label>.<declare label>], every
    other label of the parent keeps what it had, and the parent passes the
    news on to the controller unless it is in the middle of its own content
    update.  The call panics exactly when the parent's map of declares is
    nil and the child holds a declare. *)
Theorem OnChildrenContentUpdate_namespaces (cn child : node Src) :
  match OnChildrenContentUpdate cn child with
  | Done (cn', evs) =>
      (forall x d, importedDeclares child !! x = Some d ->
         GetImportedDeclareByLabel cn' (label child +:+ "." +:+ x) = (Some d, None))
      /\ (forall k, (forall x, is_Some (importedDeclares child !! x) ->
                               k <> label child +:+ "." +:+ x) ->
            importedDeclares cn' !! k = importedDeclares cn !! k)
      /\ evs = (if inContentUpdate cn then [] else [NodeUpdated (nodeID cn)])
      /\ (is_Some (importedDeclares cn) \/ forall x, importedDeclares child !! x = None)
  | Panicked msg =>
      importedDeclares cn = None
      /\ (exists x, is_Some (importedDeclares child !! x))
      /\ msg = "assignment to entry in nil map"
  end.
Proof.
  unfold OnChildrenContentUpdate.
  destruct (importedDeclares cn) as [g|] eqn:Hm.
  - rewrite surface_made. simpl. split; [|split; [|split]].
    + intros x d Hx. unfold GetImportedDeclareByLabel. simpl.
      rewrite GoFacts.gomap_lookup_Some.
      rewrite (foldr_insert_hit (fun x => label child +:+ "." +:+ x) _ _ x d).
      * reflexivity.
      * intros a b Hab. apply append_inj_l in Hab. apply append_inj_l in Hab. exact Hab.
      * apply GoFacts.NoDup_fst_mapRange.
      * apply GoFacts.elem_of_mapRange. exact Hx.
    + intros k Hk. rewrite !GoFacts.gomap_lookup_Some.
      apply (foldr_insert_miss (fun x => label child +:+ "." +:+ x)).
      intros x d Hin. apply Hk. apply GoFacts.elem_of_mapRange in Hin. eauto.
    + destruct (inContentUpdate cn); reflexivity.
    + left. eauto.
  - rewrite surface_nil.
    destruct (mapRange (importedDeclares child)) as [|[x d] rest] eqn:Hr; simpl.
    + assert (forall x, importedDeclares child !! x = None) as Hnone.
      { intros x. destruct (importedDeclares child !! x) as [d|] eqn:Hx; [|reflexivity].
        apply GoFacts.elem_of_mapRange in Hx. rewrite Hr in Hx. inversion Hx. }
      split; [|split; [|split]].
      * intros x d Hx. rewrite Hnone in Hx. discriminate.
      * intros k _. reflexivity.
      * destruct (inContentUpdate cn); reflexivity.
      * right. exact Hnone.
    + split; [reflexivity|]. split; [|reflexivity].
      exists x. exists d. apply GoFacts.elem_of_mapRange. rewrite Hr. left.
Qed.

(** Content that does not parse leaves the node with two empty maps, no
    declares and no nested imports; the controller is not notified and the
    time of the last update does not move. *)
Theorem onContentUpdate_parse_failure now (cn : node Src) content e :
  ParseFile (label cn) content = inr e ->
  exists cn',
    onContentUpdate childEvaluate now cn content = Done (cn', [])
    /\ importedDeclares cn' = Some ∅
    /\ importConfigNodesChildren cn' = Some ∅
    /\ inContentUpdate cn' = false
    /\ lastUpdateTime cn' = lastUpdateTime cn
    /\ source cn' = source cn.
Proof.
  intros Hp. unfold onContentUpdate. simpl. rewrite Hp.
  eexists. split; [reflexivity|]. simpl. auto 10.
Qed.

Lemma OnChildrenContentUpdate_declares (cn child cn' : node Src) evs :
  OnChildrenContentUpdate cn child = Done (cn', evs) ->
  importedDeclares cn' = None -> importedDeclares cn = None.
Proof.
  unfold OnChildrenContentUpdate.
  destruct (surface _ _ _) as [m|msg] eqn:Hs; [|discriminate].
  intros [= <- _]. simpl. intros ->. apply surface_Done_nil in Hs. exact Hs.
Qed.

Lemma evaluateChildrenIn_error (children : list (string * node Src)) :
  forall cn : node Src,
  match evaluateChildrenIn childEvaluate cn children with
  | Done res =>
      res.2 = None
      <-> Forall (fun kc => exists r, childEvaluate kc.2 emptyScope = Done r /\ r.2 = None)
                 children
  | Panicked _ =>
      importedDeclares cn = None
      \/ Exists (fun kc => exists msg, childEvaluate kc.2 emptyScope = Panicked msg)
                children
  end.
Proof.
  induction children as [|[k child] rest IH]; intros cn.
  - simpl. split; [intros _; constructor | reflexivity].
  - simpl.
    destruct (childEvaluate child emptyScope) as [[[child' called] err]|cmsg] eqn:Hc;
      simpl; [|right; left; simpl; eauto].
    destruct called; simpl.
    + pose proof (OnChildrenContentUpdate_namespaces
                    (setChildren cn (<[k := child']> <$> importConfigNodesChildren cn))
                    child') as Hn.
      destruct (OnChildrenContentUpdate _ child') as [[cn1 evs1]|msg] eqn:Ho; simpl.
      * destruct err as [e|]; simpl.
        -- rewrite Forall_cons. simpl. rewrite Hc.
           split; [discriminate | intros [(r & [= <-] & Hr) _]; discriminate].
        -- specialize (IH cn1).
           destruct (evaluateChildrenIn childEvaluate cn1 rest)
             as [[[cn2 evs2] err2]|msg]; simpl.
           ++ rewrite Forall_cons. simpl. rewrite Hc. simpl in IH. rewrite IH.
              split; [intros Hall; split; [eauto | exact Hall] | intros [_ Hall]; exact Hall].
           ++ destruct IH as [IH|IH].
              ** left. apply (OnChildrenContentUpdate_declares _ _ _ _ Ho) in IH. exact IH.
              ** right. right. exact IH.
      * left. destruct Hn as (Hm & _). exact Hm.
    + destruct err as [e|]; simpl.
      * rewrite Forall_cons. simpl. rewrite Hc.
        split; [discriminate | intros [(r & [= <-] & Hr) _]; discriminate].
      * match goal with |- context [evaluateChildrenIn _ ?c rest] =>
          specialize (IH c);
          destruct (evaluateChildrenIn childEvaluate c rest) as [[[cn2 evs2] err2]|msg]
        end; simpl.
        -- rewrite Forall_cons. simpl. rewrite Hc. simpl in IH. rewrite IH.
           split; [intros Hall; split; [eauto | exact Hall] | intros [_ Hall]; exact Hall].
        -- destruct IH as [IH|IH]; [left; exact IH | right; right; exact IH].
Qed.

(** When [evaluateChildren] returns, it returns no error exactly when
    every nested import of the node evaluates without error, in whatever
    order they are visited.  It panics only when the evaluation of a nested
    import panics, or when the node's map of declares is nil and a child
    surfaces a declare. *)
Theorem evaluateChildren_error_iff (cn : node Src) :
  match evaluateChildren childEvaluate cn with
  | Done res =>
      res.2 = None
      <-> forall k child, importConfigNodesChildren cn !! k = Some child ->
            exists r, childEvaluate child emptyScope = Done r /\ r.2 = None
  | Panicked _ =>
      importedDeclares cn = None
      \/ exists k child msg, importConfigNodesChildren cn !! k = Some child
                             /\ childEvaluate child emptyScope = Panicked msg
  end.
Proof.
  unfold evaluateChildren.
  pose proof (evaluateChildrenIn_error (mapRange (importConfigNodesChildren cn)) cn) as He.
  destruct (evaluateChildrenIn childEvaluate cn _) as [res|msg].
  - rewrite He, Forall_forall. split.
    + intros Hall k child Hk. apply (Hall (k, child)).
      apply GoFacts.elem_of_mapRange. exact Hk.
    + intros Hall [k child] Hin. apply (Hall k child).
      apply GoFacts.elem_of_mapRange. exact Hin.
  - destruct He as [He|He]; [left; exact He|]. right.
    apply Exists_exists in He as ([k child] & Hin & msg' & Hp).
    exists k, child, msg'. split; [|exact Hp].
    apply GoFacts.elem_of_mapRange. exact Hin.
Qed.

Lemma processNodeBody_label now content (f : File) :
  forall cn cn' : node Src,
  processNodeBody now cn f content = Done cn' -> label cn' = label cn.
Proof.
  induction f as [|stmt rest IH]; intros cn cn'.
  - simpl. intros [= <-]. reflexivity.
  - destruct stmt as [name value|stmt]; simpl; [apply IH|].
    destruct (String.eqb (Join (Name stmt) ".") "declare").
    + destruct (processDeclareBlock cn stmt content) as [cn1|msg] eqn:Hb; [|discriminate].
      simpl. intros Hp. apply IH in Hp.
      apply processDeclareBlock_frame in Hb as (_ & _ & Hl). congruence.
    + destruct (_ || _); simpl; [|apply IH].
      destruct (processImportBlock now cn stmt _) as [cn1|msg] eqn:Hb; [|discriminate].
      simpl. intros Hp. apply IH in Hp.
      apply (processImportBlock_lookup _ _ _ _ _ "") in Hb as (_ & _ & Hl). congruence.
Qed.

(** After an update with content that parses and holds no nested import,
    looking a label up answers with the first declare block of the content
    under that label, and with the error [declareLabel ... not found in
    imported node ...] for every label the content does not declare,
    whatever the node had imported before. *)
Theorem GetImportedDeclareByLabel_after_update now (cn cn' : node Src) content file evs l :
  ParseFile (label cn) content = inl file ->
  filter isImport (blocksOf file) = [] ->
  onContentUpdate childEvaluate now cn content = Done (cn', evs) ->
  GetImportedDeclareByLabel cn' l =
    match firstDeclare file l with
    | Some b => (Some (NewDeclare b (bodyText content b)), None)
    | None => (None, Some ("declareLabel " +:+ l +:+ " not found in imported node "
                           +:+ label cn))
    end.
Proof.
  intros Hparse Hno. unfold onContentUpdate. simpl. rewrite Hparse.
  destruct (processNodeBody now _ file content) as [cn1|msg] eqn:Hbody; [|discriminate].
  simpl.
  pose proof (ImportConfigNodeFacts.processNodeBody_children _ _ _ _ _ Hno Hbody)
    as (Hch & _ & _).
  pose proof (processNodeBody_label _ _ _ _ _ Hbody) as Hlabel.
  apply (ImportConfigNodeFacts.processNodeBody_lookup _ _ _ _ _ l) in Hbody as [Hbody _].
  simpl in Hch, Hlabel, Hbody. unfold mapMake in Hbody.
  rewrite GoFacts.gomap_lookup_Some, lookup_empty in Hbody.
  unfold evaluateChildren. rewrite Hch. unfold mapRange, mapMake. simpl default.
  rewrite map_to_list_empty. simpl.
  intros [= <- <-]. unfold GetImportedDeclareByLabel. simpl.
  rewrite Hbody, Hlabel. destruct (firstDeclare file l); reflexivity.
Qed.

End Node.

Import ControllerMem OpsMem.

(** The two imports labelled [dep], processed as [onContentUpdate] does
    after it has made the maps: the file import comes first and is the one
    kept. *)
Lemma processNodeBody_children_first_wins_witness :
  exists cn',
    processNodeBody 1 updatingImport fileImports "" = Done cn'
    /\ importConfigNodesChildren cn' !! "dep"
       = Some (NewImportConfigNode 1 importDep1 rootGlobals File_).
Proof.
  destruct (processNodeBody 1 updatingImport fileImports "") as [cn'|msg] eqn:Hp;
    [|vm_compute in Hp; discriminate].
  exists cn'. split; [reflexivity|].
  rewrite (processNodeBody_children_first_wins 1 "" fileImports updatingImport cn' "dep" Hp).
  reflexivity.
Defined.

Lemma onContentUpdate_parse_failure_witness :
  ParseFile (label importWithA) textBroken = inr "syntax error"
  /\ exists cn',
       onContentUpdate noChild 2 importWithA textBroken = Done (cn', [])
       /\ importedDeclares cn' = Some ∅
       /\ lastUpdateTime cn' = 1.
Proof.
  assert (ParseFile (label importWithA) textBroken = inr "syntax error") as Hp
    by (vm_compute; reflexivity).
  split; [exact Hp|].
  destruct (onContentUpdate_parse_failure noChild 2 importWithA textBroken
              "syntax error" Hp) as (cn' & Hu & Hd & _ & _ & Ht & _).
  exists cn'. split; [exact Hu|]. split; [exact Hd|]. rewrite Ht. reflexivity.
Defined.

Lemma GetImportedDeclareByLabel_after_update_witness :
  ParseFile (label importWithA) textDup = inl fileDup
  /\ filter isImport (blocksOf fileDup) = []
  /\ exists cn' evs,
       onContentUpdate noChild 2 importWithA textDup = Done (cn', evs)
       /\ GetImportedDeclareByLabel cn' "b" = (Some (NewDeclare blockB1 " x = 1"), None)
       /\ GetImportedDeclareByLabel cn' "a"
          = (None, Some "declareLabel a not found in imported node mod").
Proof.
  assert (ParseFile (label importWithA) textDup = inl fileDup) as Hp
    by (vm_compute; reflexivity).
  assert (filter isImport (blocksOf fileDup) = []) as Hno by reflexivity.
  split; [exact Hp|]. split; [exact Hno|].
  destruct (onContentUpdate noChild 2 importWithA textDup) as [[cn' evs]|msg] eqn:Hu;
    [|vm_compute in Hu; discriminate].
  exists cn', evs. split; [reflexivity|]. split.
  - rewrite (GetImportedDeclareByLabel_after_update noChild 2 importWithA cn' textDup
               fileDup evs "b" Hp Hno Hu). reflexivity.
  - rewrite (GetImportedDeclareByLabel_after_update noChild 2 importWithA cn' textDup
               fileDup evs "a" Hp Hno Hu). reflexivity.
Defined.

(** A declare with an empty body, [declare "e" {}], makes a content update
    panic on the slice. *)
Example empty_declare_panics :
  String.get 12 textEmpty = Some "{"%char /\ String.get 13 textEmpty = Some "}"%char
  /\ processDeclareBlock updatingImport blockEmpty textEmpty
     = Panicked "slice bounds out of range".
Proof. vm_compute. auto. Qed.

(** On a node that was only constructed the maps are nil: a declare block,
    an import block and a child that surfaces a declare each panic on the
    assignment, while lookups answer as on an empty map. *)
Example fresh_node_nil_maps :
  importedDeclares freshImport = None
  /\ importConfigNodesChildren freshImport = None
  /\ processDeclareBlock freshImport blockA textA
     = Panicked "assignment to entry in nil map"
  /\ processImportBlock 1 freshImport importDep1 "import.file"
     = Panicked "assignment to entry in nil map"
  /\ OnChildrenContentUpdate freshImport childDep
     = Panicked "assignment to entry in nil map"
  /\ GetImportedDeclareByLabel freshImport "a"
     = (None, Some "declareLabel a not found in imported node mod").
Proof. vm_compute. auto 10. Qed.

(** A file with a declare, a stray attribute and a block of another kind
    gives what the declare alone gives. *)
Example stray_statements_ignored :
  processNodeBody 1 updatingImport fileMixed textA
  = processNodeBody 1 updatingImport fileA textA
  /\ exists cn', processNodeBody 1 updatingImport fileA textA = Done cn'.
Proof. split; [reflexivity | eexists; vm_compute; reflexivity]. Qed.

(** The child [dep] surfaces its declare [a] as [dep.a]. *)
Example child_declare_namespaced :
  exists cn',
    OnChildrenContentUpdate importWithA childDep
    = Done (cn', [NodeUpdated "import.git.mod"])
    /\ GetImportedDeclareByLabel cn' "dep.a" = (Some (NewDeclare blockA " z = 0"), None)
    /\ GetImportedDeclareByLabel cn' "a" = (Some (NewDeclare blockA " z = 0"), None).
Proof. eexists. vm_compute. auto. Qed.

End ImportNodeFacts.

(** ** More on custom component nodes *)

Module CustomNodeFacts.
Import Go Controller CustomComponentNode CustomComponentNodeOps.

Lemma splitDot_noDot (s : string) : noDot s = true -> splitDot s = [s].
Proof.
  induction s as [|c s IH]; [reflexivity|].
  simpl. destruct (Ascii.eqb c "."); [discriminate|].
  simpl. intros Hs. rewrite (IH Hs). reflexivity.
Qed.

Lemma splitDot_app (a b : string) :
  noDot a = true -> splitDot (a +:+ "." +:+ b) = a :: splitDot b.
Proof.
  induction a as [|c a IH].
  - intros _. reflexivity.
  - simpl noDot. rewrite GoFacts.append_cons.
    destruct (Ascii.eqb c ".") eqn:Hc; [discriminate|].
    simpl. intros Ha. rewrite Hc, (IH Ha). reflexivity.
Qed.

(** A component name [<import>.<declare>] is taken apart into exactly
    these two labels, whatever follows after a further dot; a name without a
    dot is a local declare, with the empty import label. *)
Theorem ExtractImportAndDeclareLabels_parts (imp decl : string) :
  noDot imp = true -> noDot decl = true ->
  ExtractImportAndDeclareLabels (imp +:+ "." +:+ decl) = (imp, decl)
  /\ ExtractImportAndDeclareLabels decl = ("", decl)
  /\ forall rest, ExtractImportAndDeclareLabels (imp +:+ "." +:+ decl +:+ "." +:+ rest)
                  = (imp, decl).
Proof.
  intros Hi Hd. unfold ExtractImportAndDeclareLabels. split; [|split].
  - rewrite (splitDot_app imp decl Hi), (splitDot_noDot decl Hd). reflexivity.
  - rewrite (splitDot_noDot decl Hd). reflexivity.
  - intros rest.
    rewrite (splitDot_app imp _ Hi), (splitDot_app decl rest Hd).
    destruct (splitDot rest); reflexivity.
Qed.

Section Node.
Context {Scope Args MC E : Type} `{Modules Scope Args MC E}.
Variable GetCustomComponentConfig
  : node Args MC E -> CustomComponentConfig + error.

(** A node constructed for a block named [<import>.<declare>] refers to the
    declare [<declare>] of the import labelled [<import>]; one constructed
    for a block named [<declare>] alone refers to a local declare.  In both
    cases nothing is built yet and there are no exports. *)
Theorem NewCustomComponentNode_labels now g (imp decl lbl : string) body lc rc :
  noDot imp = true -> noDot decl = true ->
  let imported : node Args MC E :=
    NewCustomComponentNode now g (mkBlockStmt [imp; decl] lbl body lc rc) in
  let local : node Args MC E :=
    NewCustomComponentNode now g (mkBlockStmt [decl] lbl body lc rc) in
  importLabel imported = imp /\ declareLabel imported = decl
  /\ componentName imported = imp +:+ "." +:+ decl
  /\ importLabel local = "" /\ declareLabel local = decl
  /\ managed imported = None /\ exports imported = None
  /\ managed local = None /\ exports local = None.
Proof.
  intros Hi Hd. cbv zeta. unfold NewCustomComponentNode, GetBlockName. simpl.
  destruct (ExtractImportAndDeclareLabels_parts imp decl Hi Hd) as (Hp & Hl & _).
  rewrite Hp, Hl. simpl. auto 10.
Qed.

Lemma publish_frame now (es : list (option E)) :
  forall cn : node Args MC E,
  id (publish now cn es).1 = id cn /\ block (publish now cn es).1 = block cn
  /\ eval (publish now cn es).1 = eval cn /\ nodeID (publish now cn es).1 = nodeID cn.
Proof.
  induction es as [|e es IH]; intros cn; [simpl; auto|].
  simpl. unfold setExports.
  destruct (negb (DeepEqual (exports cn) e)); simpl.
  - match goal with |- context [publish now ?c es] =>
      specialize (IH c); destruct (publish now c es) as [cn2 evs2]
    end. simpl in *. exact IH.
  - match goal with |- context [publish now ?c es] =>
      specialize (IH c); destruct (publish now c es) as [cn2 evs2]
    end. simpl in *. exact IH.
Qed.

Lemma Evaluate_frame now (cn : node Args MC E) scope :
  let cn' := (Evaluate GetCustomComponentConfig now cn scope).1.1 in
  id cn' = id cn /\ block cn' = block cn /\ eval cn' = eval cn /\ nodeID cn' = nodeID cn.
Proof.
  cbv zeta. unfold Evaluate, evaluate.
  destruct (EvaluateArgs (eval cn) scope) as [a|e]; [|simpl; auto].
  destruct (managed cn) as [m|].
  - destruct (GetCustomComponentConfig cn) as [cfg|e]; [|simpl; auto].
    destruct (LoadFlowSource m a _ _) as [[m' published] err].
    pose proof (publish_frame now published (setManaged cn (Some m'))) as Hp.
    destruct (publish now (setManaged cn (Some m')) published) as [cn2 evs].
    simpl in Hp. destruct err; simpl; exact Hp.
  - destruct (NewModuleComponentV2 (managedOpts cn)) as [m|e]; [|simpl; auto].
    destruct (GetCustomComponentConfig _) as [cfg|e]; [|simpl; auto].
    destruct (LoadFlowSource m a _ _) as [[m' published] err].
    match goal with |- context [publish now ?c published] =>
      pose proof (publish_frame now published c) as Hp;
      destruct (publish now c published) as [cn2 evs]
    end.
    simpl in Hp. destruct err; simpl; exact Hp.
Qed.

(** Through the whole life of a node, the block it holds has the node's
    own component ID, its evaluator is the one of that block's body, and
    its node ID is the dotted form of the component ID: [UpdateBlock] lets
    no other block in, and evaluating or exporting touches none of the
    three. *)
Theorem node_identity_kept (cn : node Args MC E) :
  reachable GetCustomComponentConfig cn ->
  BlockComponentID (block cn) = id cn
  /\ eval cn = vmNew (Body (block cn))
  /\ nodeID cn = IDString (id cn).
Proof.
  intros Hr.
  induction Hr as [now g b|cn b cn' _ IH Hu|now cn scope _ IH|now cn e _ IH].
  - unfold NewCustomComponentNode.
    destruct (ExtractImportAndDeclareLabels _). simpl. auto.
  - unfold UpdateBlock in Hu.
    destruct (Equals (BlockComponentID b) (id cn)) eqn:Heq; [|discriminate].
    apply CustomComponentNodeFacts.Equals_eq in Heq.
    injection Hu as <-. simpl. destruct IH as (_ & _ & Hn). auto.
  - destruct (Evaluate_frame now cn scope) as (Hi & Hb & He & Hn).
    rewrite Hi, Hb, He, Hn. exact IH.
  - unfold setExports. destruct (negb (DeepEqual (exports cn) e)); simpl; exact IH.
Qed.

(** The module component of a node is built by [Evaluate] exactly when it
    was built before or the arguments decode and the build succeeds; once
    built it is never dropped, whatever later evaluations return. *)
Theorem Evaluate_builds_managed now (cn : node Args MC E) scope :
  is_Some (managed (Evaluate GetCustomComponentConfig now cn scope).1.1)
  <-> is_Some (managed cn)
      \/ (exists a m, EvaluateArgs (eval cn) scope = inl a
                      /\ NewModuleComponentV2 (managedOpts cn) = inl m).
Proof.
  unfold Evaluate, evaluate.
  destruct (EvaluateArgs (eval cn) scope) as [a|e].
  - destruct (managed cn) as [m|] eqn:Hm.
    + split; [intros _; left; eauto|intros _].
      destruct (GetCustomComponentConfig cn) as [cfg|e]; [|simpl; rewrite Hm; eauto].
      destruct (LoadFlowSource m a _ _) as [[m' published] err].
      pose proof (CustomComponentNodeFacts.publish_managed now published
                    (setManaged cn (Some m'))) as Hp.
      destruct (publish now (setManaged cn (Some m')) published) as [cn2 evs].
      simpl in Hp. destruct err; simpl; rewrite Hp; eauto.
    + destruct (NewModuleComponentV2 (managedOpts cn)) as [m|e].
      * split; [intros _; right; eauto|intros _].
        destruct (GetCustomComponentConfig _) as [cfg|e]; [|simpl; eauto].
        destruct (LoadFlowSource m a _ _) as [[m' published] err].
        match goal with |- context [publish now ?c published] =>
          pose proof (CustomComponentNodeFacts.publish_managed now published c) as Hp;
          destruct (publish now c published) as [cn2 evs]
        end.
        simpl in Hp. destruct err; simpl; rewrite Hp; eauto.
      * simpl. rewrite Hm. split.
        -- intros [x Hx]; discriminate.
        -- intros [[x Hx]|(a' & m & _ & Hb)]; discriminate.
  - simpl. split.
    + intros Hs. left. exact Hs.
    + intros [Hs|(a & m & Ha & _)]; [exact Hs | discriminate].
Qed.

(** Setting exports is idempotent for exports that are deep-equal to
    themselves: after the first call the stored exports are deep-equal to
    the ones given, and a second call with them changes nothing and
    notifies nobody. *)
Theorem setExports_idempotent now now' (cn : node Args MC E) (e : option E) :
  DeepEqual e e = true ->
  DeepEqual (exports (setExports now cn e).1) e = true
  /\ setExports now' (setExports now cn e).1 e = ((setExports now cn e).1, []).
Proof.
  intros Hrefl. unfold setExports.
  destruct (DeepEqual (exports cn) e) eqn:Hd; simpl.
  - rewrite Hd. simpl. split; reflexivity.
  - rewrite Hrefl. simpl. split; reflexivity.
Qed.

End Node.

Import ControllerMem.

Lemma ExtractImportAndDeclareLabels_parts_witness :
  noDot "testImport" = true /\ noDot "test" = true
  /\ ExtractImportAndDeclareLabels "testImport.test" = ("testImport", "test")
  /\ ExtractImportAndDeclareLabels "test" = ("", "test").
Proof.
  split; [reflexivity|]. split; [reflexivity|].
  destruct (ExtractImportAndDeclareLabels_parts "testImport" "test" eq_refl eq_refl)
    as (Hp & Hl & _).
  split; [exact Hp | exact Hl].
Defined.

Lemma NewCustomComponentNode_labels_witness :
  noDot "mod" = true /\ noDot "test" = true
  /\ importLabel freshCustom = "mod" /\ declareLabel freshCustom = "test".
Proof.
  split; [reflexivity|]. split; [reflexivity|].
  destruct (NewCustomComponentNode_labels (E := gmap string Z) (MC := string)
              (Args := gmap string string) 0 rootGlobals "mod" "test" "one"
              [AttributeStmt "input" "1"] 15 27 eq_refl eq_refl)
    as (Hi & Hd & _).
  split; [exact Hi | exact Hd].
Defined.

(** The node after its block was replaced and it was evaluated. *)
Lemma node_identity_kept_witness :
  reachable someConfig
    (Evaluate someConfig 2 (setBlock freshCustom customBlock'
                              (vmNew [AttributeStmt "input" "2"])) ∅).1.1
  /\ BlockComponentID
       (block (Evaluate someConfig 2 (setBlock freshCustom customBlock'
                                        (vmNew [AttributeStmt "input" "2"])) ∅).1.1)
     = ["mod"; "test"; "one"].
Proof.
  assert (reachable someConfig
            (Evaluate someConfig 2 (setBlock freshCustom customBlock'
                                      (vmNew [AttributeStmt "input" "2"])) ∅).1.1) as Hr.
  { apply reach_evaluate.
    apply (reach_block someConfig freshCustom customBlock').
    - exact (reach_new someConfig 0 rootGlobals customBlock).
    - reflexivity. }
  split; [exact Hr|].
  rewrite (proj1 (node_identity_kept someConfig _ Hr)). reflexivity.
Defined.

Lemma setExports_idempotent_witness :
  DeepEqual (Some ({[ "output" := 10 ]} : gmap string Z))
            (Some ({[ "output" := 10 ]} : gmap string Z)) = true
  /\ setExports 4 (setExports 3 freshCustom (Some {[ "output" := 10 ]})).1
                (Some {[ "output" := 10 ]})
     = ((setExports 3 freshCustom (Some {[ "output" := 10 ]})).1, []).
Proof.
  assert (DeepEqual (Some ({[ "output" := 10 ]} : gmap string Z))
                    (Some ({[ "output" := 10 ]} : gmap string Z)) = true) as Hr
    by (vm_compute; reflexivity).
  split; [exact Hr|].
  exact (proj2 (setExports_idempotent 3 4 freshCustom (Some {[ "output" := 10 ]}) Hr)).
Defined.

End CustomNodeFacts.
